(** * Voice dispatch agent: session orchestration

    A shallow embedding of the real-time core of the dispatch agent:
    - [app/api/v1/endpoints/websocket.py]: the turn loop [llm_websocket],
      the greeting template, the tool-calling adapter
      [generate_llm_response_with_extraction] and
      [finalize_call_on_disconnect];
    - [app/api/v1/endpoints/calls.py]: the shared dictionary [active_calls],
      [create_web_call] (registration) and [recording_webhook];
    - [app/services/database.py]: [DatabaseService.update_call_result].

    Python dictionaries keyed by strings are finite maps; the per-call
    dictionary, whose keys are a small fixed set, is a record of optional
    fields.  What the outside world answers during a step (the chat
    completion, whether a send goes through, what the database does) is
    given to that step as an explicit argument, and everything a step
    does to the outside world is returned as a trace of effects. *)

From Stdlib Require Import ZArith Ascii String List Bool Lia.
From stdpp Require Import base option list strings gmap fin_maps.

Local Open Scope string_scope.

(** ** Strings

    A Python [str] is modelled by [string]; an [ascii] stands for a code
    point below 256. *)

Module PyStr.

(** [str.isspace] on one character, for code points below 256:
    TAB..CR, FS..US, SPACE, NEL and NBSP. *)
Definition is_space (c : ascii) : bool :=
  let n := nat_of_ascii c in
  (((9 <=? n) && (n <=? 13)) || ((28 <=? n) && (n <=? 32))
   || (n =? 133) || (n =? 160))%nat.

Fixpoint lstrip (s : string) : string :=
  match s with
  | EmptyString => EmptyString
  | String c s' => if is_space c then lstrip s' else s
  end.

Definition rstrip (s : string) : string :=
  String.rev (lstrip (String.rev s)).

(** [s.strip()] *)
Definition strip (s : string) : string := rstrip (lstrip s).

(** Every character of [s] is white space. *)
Fixpoint blank (s : string) : bool :=
  match s with
  | EmptyString => true
  | String c s' => is_space c && blank s'
  end.

(** Truth value of a string: [bool(s)]. *)
Definition truthy (s : string) : bool :=
  match s with EmptyString => false | _ => true end.

End PyStr.

(** ** Values carried in the extracted fields

    The three tool schemas declare string, number and boolean properties
    only, and [json.loads] adds [None] for a JSON null; the fields form a
    flat mapping.  Numbers are carried around and never computed on: a
    number is kept as the decimal literal [mantissa / 10 ^ scale]. *)

Record number := Num { mantissa : Z; scale : nat }.

Inductive value :=
| VNone
| VBool (b : bool)
| VNum (n : number)
| VStr (s : string).

Global Instance number_eq_dec : EqDecision number.
Proof. solve_decision. Defined.
Global Instance value_eq_dec : EqDecision value.
Proof. solve_decision. Defined.

Abbreviation Fields := (gmap string value).

(** The comprehension filter of the merge: [v is not None and v != ""]. *)
Definition kept (v : value) : bool :=
  match v with
  | VNone => false
  | VStr EmptyString => false
  | _ => true
  end.

(** [{k: v for k, v in extracted_data.items() if v is not None and v != ""}] *)
Definition non_empty_items (extracted_data : Fields) : Fields :=
  filter (λ kv, kept kv.2 = true) extracted_data.

(** [d.update(new)]: the entries of [new] win. *)
Definition dict_update (d new : Fields) : Fields := new ∪ d.

(** The merge of one turn:
    [active_calls[call_id]["extracted_data"].update({...})]. *)
Definition merge_extracted (accumulated extracted_data : Fields) : Fields :=
  dict_update accumulated (non_empty_items extracted_data).

(** A whole sequence of merges, oldest first. *)
Definition merge_all (accumulated : Fields) (turns : list Fields) : Fields :=
  foldl merge_extracted accumulated turns.

(** ** Transcripts *)

(** One transcript entry [{role, content}], both strings as the platform
    sends them; a key that is absent from the dictionary is [None]. *)
Record Entry := mkEntry { role : option string; content : option string }.

Abbreviation Transcript := (list Entry).

(** A message of the chat history handed to the completion API. *)
Record Message := mkMessage { msg_role : string; msg_content : string }.

(** [entry.get("content", "").strip()] *)
Definition stripped_content (entry : Entry) : string :=
  PyStr.strip (default "" (content entry)).

(** The test of the backwards scan:
    [entry.get("role") == "user" and entry.get("content", "").strip()]. *)
Definition is_user_utterance (entry : Entry) : bool :=
  bool_decide (role entry = Some "user")
  && PyStr.truthy (stripped_content entry).

(** The scan [for entry in reversed(transcript): ... break]; [user_input]
    stays [""] when nothing matches. *)
Definition last_user_input (transcript : Transcript) : string :=
  match find is_user_utterance (rev transcript) with
  | Some entry => stripped_content entry
  | None => ""
  end.

(** [transcript[:-1]] *)
Definition all_but_last (transcript : Transcript) : Transcript :=
  removelast transcript.

(** The test guarding [conversation_history.append]. *)
Definition in_history (user_input : string) (entry : Entry) : bool :=
  match content entry with
  | None => false
  | Some c =>
      PyStr.truthy c
      && (0 <? String.length (PyStr.strip c))%nat
      && negb (bool_decide (PyStr.strip c = user_input))
  end.

(** The dictionary appended for an entry that passes the test. *)
Definition history_message (entry : Entry) : Message :=
  {| msg_role := if bool_decide (role entry = Some "agent")
                 then "assistant" else "user";
     msg_content := stripped_content entry |}.

(** [l[-n:]] for [n > 0]. *)
Definition last_n {A} (n : nat) (l : list A) : list A :=
  drop (length l - n) l.

(** The context of a turn: the loop over [transcript[:-1]] followed by
    [conversation_history[-6:]]. *)
Definition conversation_history (transcript : Transcript)
    (user_input : string) : list Message :=
  last_n 6 (history_message
            <$> List.filter (in_history user_input) (all_but_last transcript)).

(** ** The shared dictionary [active_calls] *)

(** The per-call dictionary.  Its keys are [driver_name], [load_number]
    and [phone_number] (set by [create_web_call]) and [extracted_data] and
    [full_transcript] (set by the turn loop); a key that is absent is
    [None]. *)
Record Session := mkSession {
  driver_name : option string;
  load_number : option string;
  phone_number : option string;
  extracted_data : option Fields;
  full_transcript : option Transcript
}.

Abbreviation Store := (gmap string Session).

(** The [{}] of [active_calls.get(call_id, {})]. *)
Definition no_call_data : Session :=
  mkSession None None None None None.

(** [active_calls.get(call_id, {})] *)
Definition call_data_of (active_calls : Store) (call_id : string) : Session :=
  default no_call_data (active_calls !! call_id).

(** [call_data["extracted_data"] = d] *)
Definition set_extracted_data (d : Fields) (s : Session) : Session :=
  mkSession (driver_name s) (load_number s) (phone_number s)
            (Some d) (full_transcript s).

(** [call_data["full_transcript"] = t] *)
Definition set_full_transcript (t : Transcript) (s : Session) : Session :=
  mkSession (driver_name s) (load_number s) (phone_number s)
            (extracted_data s) (Some t).

(** The body of a [create-test-call] request. *)
Record CallMetadataRequest := mkRequest {
  req_driver_name : option string;
  req_phone_number : option string;
  req_load_number : option string
}.

(** [create_web_call], the part that touches the shared dictionary:
    [active_calls[response.call_id] = call_metadata]. *)
Definition create_web_call (call_id : string) (request : CallMetadataRequest)
    (active_calls : Store) : Store :=
  <[call_id := mkSession (Some (default "Driver" (req_driver_name request)))
                         (Some (default "Load" (req_load_number request)))
                         (Some (default "" (req_phone_number request)))
                         None None]> active_calls.

(** ** Effects and the environment *)

(** The arguments of one call of the tool-calling adapter. *)
Record PolicyCall := mkPolicyCall {
  pc_user_input : string;
  pc_driver_name : string;
  pc_load_number : string;
  pc_conversation_history : list Message;
  pc_accumulated_data : Fields
}.

(** A turn response [{response_id, content, content_complete, end_call}]. *)
Record Response := mkResponse {
  response_id : Z;
  resp_content : value;
  content_complete : bool;
  end_call : value
}.

(** The dictionary handed to [update_call_result]: the four keys that are
    always there, and in [columns] those of the seven result fields that
    were copied in. *)
Record UpdateData := mkUpdateData {
  call_status : string;
  call_ended_at : Z;
  ud_full_transcript : Transcript;
  structured_data : Fields;
  columns : Fields
}.

(** What a step does to the outside world, in order.  [ESend] is a call of
    [websocket.send_text], [EPolicy] a call of
    [generate_llm_response_with_extraction], [EDbWrite] a call of
    [update_call_result] together with what it returned. *)
Inductive Effect :=
| EPolicy (call : PolicyCall)
| ESend (response : Response)
| EDbWrite (call_id : option string) (update_data : UpdateData) (success : bool).

(** What [tool_call.function.arguments] parses to: [json.loads] raises, or
    what it returns is no dictionary, or it is one. *)
Inductive Arguments :=
| ArgsInvalid (err : string)
| ArgsObject (args : Fields).

(** What [client.chat.completions.create] does: it raises (timeout after
    the 10 seconds, API error, empty [choices]), or answers without a tool
    call, or answers with one. *)
Inductive Completion :=
| CompletionRaises (err : string)
| CompletionNoToolCalls
| CompletionToolCall (tool_name : string) (arguments : Arguments).

(** What the database does with an [UPDATE]: connecting or executing
    raises, or the statement touches [rowcount] rows. *)
Inductive DbOutcome :=
| DbRaises
| DbRowcount (rowcount : nat).

(** What the outside world answers during one step. *)
Record Env := mkEnv {
  completion : Completion;
  send_ok : bool;          (* [send_text] returns rather than raises *)
  db_service : bool;       (* [get_database_service()] returns rather than raises *)
  db_outcome : DbOutcome;
  now : Z                  (* [time.time()] *)
}.

(** ** The tool-calling adapter *)

Definition fallback_reply : string :=
  "I understand. Can you provide more details about your current status?".

(** The [except Exception as e] branch. *)
Definition error_fields (err : string) : Fields :=
  {[ "is_emergency" := VBool false;
     "confidence" := VNum (Num 1 1);
     "error" := VStr err ]}.

(** The fallback returned when the answer carries no tool call. *)
Definition no_tool_fields : Fields :=
  {[ "is_emergency" := VBool false;
     "confidence" := VNum (Num 5 1);
     "call_outcome" := VStr "In Progress" ]}.

(** The metadata added after the arguments are parsed. *)
Definition tag_tool (tool_name : string) (args : Fields) : Fields :=
  <["should_end_call" := VBool (bool_decide (tool_name = "end_call"))]>
    (<["is_emergency" :=
         VBool (bool_decide (tool_name = "handle_emergency_protocol"))]>
       (<["tool_used" := VStr tool_name]> args)).

(** The reply and the fields computed from what the completion did. *)
Definition decide_reply (c : Completion) : value * Fields :=
  match c with
  | CompletionRaises err => (VStr fallback_reply, error_fields err)
  | CompletionNoToolCalls => (VStr fallback_reply, no_tool_fields)
  | CompletionToolCall tool_name (ArgsInvalid err) =>
      (VStr fallback_reply, error_fields err)
  | CompletionToolCall tool_name (ArgsObject args) =>
      (default (VStr "I understand. Can you provide more details?")
               (args !! "response_text"),
       tag_tool tool_name (delete "response_text" args))
  end.

(** [generate_llm_response_with_extraction]: one call of the adapter. *)
Definition generate_llm_response_with_extraction (call : PolicyCall)
    (c : Completion) : list Effect * (value * Fields) :=
  ([EPolicy call], decide_reply c).

(** ** The persistence gateway *)

(** The result fields copied from the extracted data into the update. *)
Definition result_fields : list string :=
  ["call_outcome"; "driver_status"; "current_location"; "eta";
   "emergency_type"; "emergency_location"; "escalation_status"].

(** [for field in [...]: if field in d: update_data[field] = d[field]] *)
Definition copy_result_fields (d : Fields) : Fields :=
  foldl (λ update_data field,
           match d !! field with
           | Some v => <[field := v]> update_data
           | None => update_data
           end) ∅ result_fields.

(** The names of the [SET] clauses built by [update_call_result]. *)
Definition set_clauses (update_data : UpdateData) : list string :=
  ["call_status"; "call_ended_at"; "full_transcript"; "structured_data"]
  ++ (map_to_list (columns update_data)).*1.

(** [DatabaseService.update_call_result]: [False] when there is nothing to
    set, when the database raises, and when no row was touched. *)
Definition update_call_result (o : DbOutcome) (call_id : option string)
    (update_data : UpdateData) : bool :=
  match o with
  | DbRaises => false
  | DbRowcount rowcount =>
      match set_clauses update_data with
      | [] => false
      | _ => (0 <? rowcount)%nat
      end
  end.

(** ** Finalization *)

(** The summary sentence shared by both finalizers. *)
Definition summary_of (call_data : Session) : string :=
  "Call completed with " +:+ default "driver" (driver_name call_data)
  +:+ " about load " +:+ default "N/A" (load_number call_data).

(** [finalize_call_on_disconnect].  When [get_database_service()] raises,
    the [except] branch is taken before anything was written or removed. *)
Definition finalize_call_on_disconnect (env : Env) (call_id : string)
    (active_calls : Store) : Store * list Effect :=
  let call_data := call_data_of active_calls call_id in
  let extracted := default ∅ (extracted_data call_data) in
  let stored_transcript := default [] (full_transcript call_data) in
  let structured :=
    dict_update extracted
      {[ "call_outcome" :=
           default (VStr "Call Completed") (extracted !! "call_outcome");
         "summary" := VStr (summary_of call_data) ]} in
  if db_service env then
    let update_data :=
      mkUpdateData "completed" (now env) stored_transcript structured
                   (copy_result_fields extracted) in
    let success :=
      update_call_result (db_outcome env) (Some call_id) update_data in
    (if decide (is_Some (active_calls !! call_id))
     then delete call_id active_calls else active_calls,
     [EDbWrite (Some call_id) update_data success])
  else (active_calls, []).

(** The body of a [recording-webhook] request. *)
Record RecordingData := mkRecording {
  rd_call_id : option string;
  rd_transcript : option Transcript
}.

(** What [recording_webhook] answers. *)
Inductive WebhookReply :=
| ReplySuccess (structured : Fields)
| ReplyError.

(** The minimal fallback of [recording_webhook]. *)
Definition minimal_fallback (call_data : Session) : Fields :=
  {[ "call_outcome" := VStr "Call Completed";
     "confidence" := VNum (Num 3 1);
     "summary" := VStr (summary_of call_data
                        +:+ " - no data extracted during conversation") ]}.

(** [recording_webhook].  The accumulated dictionary is the one stored in
    the session, so adding the summary to it changes the session too. *)
Definition recording_webhook (env : Env) (recording_data : RecordingData)
    (active_calls : Store) : Store * list Effect * WebhookReply :=
  let call_id := rd_call_id recording_data in
  let transcript := default [] (rd_transcript recording_data) in
  let call_data :=
    match call_id with
    | Some c => call_data_of active_calls c
    | None => no_call_data
    end in
  let accumulated := default ∅ (extracted_data call_data) in
  let transcript :=
    match transcript, full_transcript call_data with
    | [], Some (e :: stored) => e :: stored
    | _, _ => transcript
    end in
  let '(structured, active_calls) :=
    if decide (accumulated = ∅)
    then (minimal_fallback call_data, active_calls)
    else
      let structured :=
        <["summary" := VStr (summary_of call_data)]> accumulated in
      (structured,
       match call_id with
       | Some c => <[c := set_extracted_data structured call_data]> active_calls
       | None => active_calls
       end) in
  if db_service env then
    let update_data :=
      mkUpdateData "completed" (now env) transcript structured
                   (copy_result_fields structured) in
    let success := update_call_result (db_outcome env) call_id update_data in
    (match call_id with
     | Some c =>
         if PyStr.truthy c && bool_decide (is_Some (active_calls !! c))
         then delete c active_calls else active_calls
     | None => active_calls
     end,
     [EDbWrite call_id update_data success],
     ReplySuccess structured)
  else (active_calls, [], ReplyError).

(** ** The turn loop *)

(** [generate_first_message_simple] *)
Definition generate_first_message_simple (driver load : string) : string :=
  "Hi " +:+ driver +:+ ", this is Dispatch calling about load " +:+ load
  +:+ ". Can you give me an update on your status?".

(** The local variables of one connection. *)
Record Handler := mkHandler {
  h_call_id : string;
  h_driver_name : string;
  h_load_number : string
}.

(** The first lines of [llm_websocket]: the variables are read once. *)
Definition accept (call_id : string) (active_calls : Store) : Handler :=
  let call_data := call_data_of active_calls call_id in
  mkHandler call_id
            (default "Driver" (driver_name call_data))
            (default "your load" (load_number call_data)).

Definition first_response (h : Handler) : Response :=
  mkResponse 0
    (VStr (generate_first_message_simple (h_driver_name h) (h_load_number h)))
    true (VBool false).

(** A parsed inbound message. *)
Record Inbound := mkInbound {
  interaction_type : option string;
  in_response_id : option Z;
  response_type : option string;
  in_transcript : option Transcript
}.

(** What one [receive_text] within the 30 seconds ends in. *)
Inductive Received :=
| RecvTimeout                (* [asyncio.TimeoutError] *)
| RecvDisconnect             (* [WebSocketDisconnect] *)
| RecvFailure                (* any other exception, a parse error too *)
| RecvText (m : Inbound).

Inductive Loop := Continue | Break.

(** The branch [interaction_type == "response_required"]. *)
Definition response_required (env : Env) (h : Handler) (m : Inbound)
    (active_calls : Store) : Store * list Effect * Loop :=
  let call_id := h_call_id h in
  let transcript := default [] (in_transcript m) in
  let user_input := last_user_input transcript in
  if PyStr.truthy user_input then
    let history := conversation_history transcript user_input in
    let current_accumulated_data :=
      default ∅ (extracted_data (call_data_of active_calls call_id)) in
    let '(called, (response_content, extracted)) :=
      generate_llm_response_with_extraction
        (mkPolicyCall user_input (h_driver_name h) (h_load_number h)
                      history current_accumulated_data)
        (completion env) in
    let call_data :=
      default (mkSession (Some (h_driver_name h)) (Some (h_load_number h))
                         None None None)
              (active_calls !! call_id) in
    let accumulated :=
      merge_extracted (default ∅ (extracted_data call_data)) extracted in
    let call_data :=
      set_full_transcript transcript (set_extracted_data accumulated call_data) in
    let should_end := default (VBool false) (extracted !! "should_end_call") in
    let response :=
      mkResponse (default 1%Z (in_response_id m)) response_content true
                 should_end in
    (<[call_id := call_data]> active_calls,
     (called ++ [ESend response])%list,
     if send_ok env then Continue else Break)
  else (active_calls, [], Continue).

(** One iteration of [while True]. *)
Definition loop_iteration (env : Env) (h : Handler) (r : Received)
    (active_calls : Store) : Store * list Effect * Loop :=
  match r with
  | RecvTimeout => (active_calls, [], Continue)
  | RecvDisconnect => (active_calls, [], Break)
  | RecvFailure => (active_calls, [], Break)
  | RecvText m =>
      if bool_decide (response_type m = Some "ping_pong")
      then (active_calls, [], Continue)
      else if bool_decide (interaction_type m = Some "response_required")
      then response_required env h m active_calls
      else (active_calls, [], Continue)
  end.

(** ** One connection among the other callers of [active_calls] *)

(** A connection is inside its loop with its local variables, or it has
    left the loop and run its [finally] block. *)
Inductive Conn :=
| Open (h : Handler)
| Closed.

(** [llm_websocket] up to the loop: read the variables, send the greeting.
    A failed send goes straight to the [finally] block. *)
Definition llm_websocket_open (env : Env) (call_id : string)
    (active_calls : Store) : Conn * Store * list Effect :=
  let h := accept call_id active_calls in
  if send_ok env then (Open h, active_calls, [ESend (first_response h)])
  else
    let '(active_calls, finalized) :=
      finalize_call_on_disconnect env call_id active_calls in
    (Closed, active_calls, ESend (first_response h) :: finalized).

(** What can happen next: the connection receives something, the
    recording webhook is called, or a call is registered. *)
Inductive Action :=
| Receive (r : Received)
| Webhook (recording_data : RecordingData)
| Register (call_id : string) (request : CallMetadataRequest).

(** One action.  Leaving the loop runs [finalize_call_on_disconnect]. *)
Definition system_step (env : Env) (a : Action) (c : Conn)
    (active_calls : Store) : Conn * Store * list Effect :=
  match a, c with
  | Receive r, Open h =>
      match loop_iteration env h r active_calls with
      | (active_calls, done, Continue) => (Open h, active_calls, done)
      | (active_calls, done, Break) =>
          let '(active_calls, finalized) :=
            finalize_call_on_disconnect env (h_call_id h) active_calls in
          (Closed, active_calls, (done ++ finalized)%list)
      end
  | Receive r, Closed => (Closed, active_calls, [])
  | Webhook recording_data, _ =>
      let '(active_calls, done, _) :=
        recording_webhook env recording_data active_calls in
      (c, active_calls, done)
  | Register call_id request, _ =>
      (c, create_web_call call_id request active_calls, [])
  end.

(** A schedule of actions, each with what the outside world answers. *)
Fixpoint run (schedule : list (Env * Action)) (c : Conn)
    (active_calls : Store) : Conn * Store * list Effect :=
  match schedule with
  | [] => (c, active_calls, [])
  | (env, a) :: schedule =>
      let '(c, active_calls, done) := system_step env a c active_calls in
      let '(c, active_calls, rest) := run schedule c active_calls in
      (c, active_calls, (done ++ rest)%list)
  end.

(** ** Reading traces *)

Definition is_db_write (e : Effect) : bool :=
  match e with EDbWrite _ _ _ => true | _ => false end.

(** The persistence writes of a trace that are for [call_id]. *)
Definition writes_for (call_id : string) (trace : list Effect) : list Effect :=
  List.filter (λ e, match e with
                    | EDbWrite c _ _ => bool_decide (c = Some call_id)
                    | _ => false
                    end) trace.

(** The adapter calls of a trace. *)
Definition policy_calls (trace : list Effect) : list PolicyCall :=
  omap (λ e, match e with EPolicy call => Some call | _ => None end) trace.

(** The two finalization triggers, one after the other. *)
Definition disconnect_then_notification (env1 env2 : Env) (call_id : string)
    (recording_data : RecordingData) (active_calls : Store)
    : Store * list Effect * Store * list Effect :=
  let '(s1, t1) := finalize_call_on_disconnect env1 call_id active_calls in
  let '(s2, t2, _) := recording_webhook env2 recording_data s1 in
  (s1, t1, s2, t2).

Definition notification_then_disconnect (env1 env2 : Env) (call_id : string)
    (recording_data : RecordingData) (active_calls : Store)
    : Store * list Effect * Store * list Effect :=
  let '(s1, t1, _) := recording_webhook env1 recording_data active_calls in
  let '(s2, t2) := finalize_call_on_disconnect env2 call_id s1 in
  (s1, t1, s2, t2).

(** ** Choosing the published agent ([calls.py]) *)

(** What [get_published_agent_info] reads of an agent of the listing;
    [agent_version] is [None] when the agent has no [version] attribute. *)
Record Agent := mkAgent {
  agent_id : string;
  is_published : bool;
  response_engine_type : string;
  agent_version : option Z
}.

(** What [retell_client.agent.list()] does. *)
Inductive AgentListing :=
| ListingRaises
| Listing (agents : list Agent).

(** The test of the loop over the listing; [retell_agent_id] is
    [settings.RETELL_AGENT_ID], [None] when the variable is not set. *)
Definition is_candidate (retell_agent_id : option string) (agent : Agent)
    : bool :=
  bool_decide (Some (agent_id agent) = retell_agent_id)
  && is_published agent
  && bool_decide (response_engine_type agent = "custom-llm").

(** [getattr(agent, 'version', 0)] *)
Definition version_of (agent : Agent) : Z := default 0%Z (agent_version agent).

(** [published_agents.sort(key=lambda x: x[1], reverse=True)]: a stable
    sort, highest version first; pairs of equal version keep their order. *)
Fixpoint insert_desc (x : Agent * Z) (l : list (Agent * Z))
    : list (Agent * Z) :=
  match l with
  | [] => [x]
  | y :: l' => if (x.2 <? y.2)%Z then y :: insert_desc x l' else x :: y :: l'
  end.

Definition sort_desc (l : list (Agent * Z)) : list (Agent * Z) :=
  foldr insert_desc [] l.

(** [get_published_agent_info] *)
Definition get_published_agent_info (retell_agent_id : option string)
    (listing : AgentListing) : option string * option Z :=
  match listing with
  | ListingRaises => (retell_agent_id, None)
  | Listing agents =>
      let published_agents :=
        (λ agent, (agent, version_of agent))
          <$> List.filter (is_candidate retell_agent_id) agents in
      match published_agents with
      | [] => (retell_agent_id, None)
      | _ =>
          match sort_desc published_agents with
          | (agent, version) :: _ => (Some (agent_id agent), Some version)
          | [] => (retell_agent_id, None)
          end
      end
  end.

(** ** Reading a conversation back ([database.py]) *)

(** One message of [get_call_conversation]; the keys [timestamp],
    [tool_name], [tool_arguments] and [tool_result] are always [None]. *)
Record ConversationMessage := mkConversationMessage {
  cm_role : string;
  cm_content : string;
  sequence_number : nat
}.

(** What the [SELECT full_transcript] gives: it raises, there is no row,
    or there is one, its transcript possibly [NULL]. *)
Inductive TranscriptRow :=
| SelectRaises
| NoRow
| Row (stored : option Transcript).

(** [for i, entry in enumerate(transcript): conversation.append({...})] *)
Definition conversation_of (transcript : Transcript)
    : list ConversationMessage :=
  imap (λ i entry,
          mkConversationMessage (default "user" (role entry))
                                (default "" (content entry)) i)
       transcript.

(** [DatabaseService.get_call_conversation] *)
Definition get_call_conversation (row : TranscriptRow)
    : list ConversationMessage :=
  match row with
  | Row (Some (entry :: transcript)) => conversation_of (entry :: transcript)
  | _ => []
  end.

(** ** The request to the completion API ([websocket.py]) *)

(** [messages]: the system prompt, the conversation history when there is
    one, and the current user input.  The text of the system prompt is
    left open. *)
Definition chat_messages (system_prompt : string) (call : PolicyCall)
    : list Message :=
  (mkMessage "system" system_prompt
   :: pc_conversation_history call
   ++ [mkMessage "user" (pc_user_input call)])%list.

(** ** The update statement ([database.py]) *)

(** A value of the dictionary handed to [update_call_result]. *)
Inductive UpdateValue :=
| UScalar (v : value)
| UTime (t : Z)
| UTranscript (t : Transcript)
| UFields (d : Fields).

(** Truth value of such a value. *)
Definition update_value_truthy (v : UpdateValue) : bool :=
  match v with
  | UScalar VNone => false
  | UScalar (VBool b) => b
  | UScalar (VNum n) => negb (mantissa n =? 0)%Z
  | UScalar (VStr s) => PyStr.truthy s
  | UTime t => negb (t =? 0)%Z
  | UTranscript t => match t with [] => false | _ => true end
  | UFields d => negb (bool_decide (d = ∅))
  end.

(** One element of [set_clauses]: [f"{field} = %s"] or [f"{field} = NOW()"]. *)
Inductive SetClause :=
| SetParam (field : string)
| SetNow (field : string).

Definition render_clause (c : SetClause) : string :=
  match c with
  | SetParam field => field +:+ " = %s"
  | SetNow field => field +:+ " = NOW()"
  end.

(** One element of [values]: a value as it is, the JSON text of a value,
    [None], or the call identifier. *)
Inductive SqlParam :=
| PValue (v : UpdateValue)
| PJson (v : UpdateValue)
| PNull
| PCallId (call_id : option string).

Definition scalar_columns : list string :=
  ["call_status"; "call_outcome"; "driver_status"; "current_location";
   "eta"; "emergency_type"; "emergency_location"; "escalation_status"].

Definition json_columns : list string := ["full_transcript"; "structured_data"].

(** The body of [for field, value in update_data.items()]. *)
Definition add_clause (acc : list SetClause * list SqlParam)
    (item : string * UpdateValue) : list SetClause * list SqlParam :=
  let '(clauses, values) := acc in
  let '(field, v) := item in
  if bool_decide (field ∈ scalar_columns)
  then ((clauses ++ [SetParam field])%list, (values ++ [PValue v])%list)
  else if bool_decide (field ∈ json_columns)
  then ((clauses ++ [SetParam field])%list,
        (values ++ [if update_value_truthy v then PJson v else PNull])%list)
  else if bool_decide (field = "call_ended_at")
  then ((clauses ++ [SetNow field])%list, values)
  else acc.

(** The clauses and values after the loop; the dictionary is given by its
    items in insertion order. *)
Definition build_update (update_data : list (string * UpdateValue))
    : list SetClause * list SqlParam :=
  foldl add_clause ([], []) update_data.

(** The statement [update_call_result] executes: [None] when there is
    nothing to set (it then returns [False] without executing anything),
    else the clauses of [SET] and the parameters, the last one for
    [WHERE call_id = %s]. *)
Definition update_statement (call_id : option string)
    (update_data : list (string * UpdateValue))
    : option (list SetClause * list SqlParam) :=
  match build_update update_data with
  | ([], _) => None
  | (clauses, values) =>
      Some ((clauses ++ [SetNow "updated_at"])%list,
            (values ++ [PCallId call_id])%list)
  end.

(** The number of [%s] of the statement: one for each parameter clause and
    one for the [WHERE]. *)
Definition placeholders (clauses : list SetClause) : nat :=
  S (length (List.filter (λ c, match c with SetParam _ => true | _ => false end)
                         clauses)).

(** The items of the dictionary both finalizers build: the four fixed
    keys, then the result fields that were copied, in the order of the
    loop. *)
Definition update_items (update_data : UpdateData)
    : list (string * UpdateValue) :=
  ([ ("call_status", UScalar (VStr (call_status update_data)));
     ("call_ended_at", UTime (call_ended_at update_data));
     ("full_transcript", UTranscript (ud_full_transcript update_data));
     ("structured_data", UFields (structured_data update_data)) ]
   ++ omap (λ field, (λ v, (field, UScalar v)) <$> columns update_data !! field)
           result_fields)%list.

(** ** The record of a new call ([calls.py], [database.py]) *)

(** A value of the dictionary [create_call_database_record] builds. *)
Inductive CallDataValue :=
| CText (s : string)
| CStructured (call_metadata : Session).

(** [create_call_database_record], the dictionary handed on to
    [create_call_result]. *)
Definition create_call_database_record (call_id : string)
    (call_metadata : Session) : gmap string CallDataValue :=
  {[ "call_id" := CText call_id;
     "driver_name" := CText (default "Driver" (driver_name call_metadata));
     "phone_number" := CText (default "" (phone_number call_metadata));
     "load_number" := CText (default "Load" (load_number call_metadata));
     "call_outcome" := CText "In Progress";
     "driver_status" := CText "Unknown";
     "current_location" := CText "Not provided";
     "eta" := CText "Not provided";
     "structured_data" := CStructured call_metadata ]}.

(** The parameters of the [INSERT] of [create_call_result];
    [call_metadata] is the value [json.dumps] is applied to, [None] for
    the [{}] of [call_data.get("metadata", {})]. *)
Record CallInsert := mkCallInsert {
  ci_call_id : option CallDataValue;
  ci_agent_configuration_id : option string;
  ci_driver_name : option CallDataValue;
  ci_phone_number : option CallDataValue;
  ci_load_number : option CallDataValue;
  ci_call_status : string;
  ci_call_metadata : option CallDataValue
}.

(** [create_call_result], the parameters of its [INSERT]; [active_config]
    is the identifier of the active agent configuration, if there is one. *)
Definition create_call_result (active_config : option string)
    (call_data : gmap string CallDataValue) : CallInsert :=
  mkCallInsert (call_data !! "call_id") active_config
               (call_data !! "driver_name") (call_data !! "phone_number")
               (call_data !! "load_number") "in_progress"
               (call_data !! "metadata").

(** ** Vocabulary of the properties *)

(** The field [k] of [d] holds a non-empty value. *)
Definition populated (d : Fields) (k : string) : Prop :=
  ∃ v, d !! k = Some v ∧ kept v = true.

(** The message of the exception that sends the adapter to its [except]
    branch: the completion call raised, or the arguments did not parse. *)
Definition adapter_error (c : Completion) : option string :=
  match c with
  | CompletionRaises err => Some err
  | CompletionToolCall _ (ArgsInvalid err) => Some err
  | _ => None
  end.

(** The adapter did not get a usable tool call. *)
Definition adapter_failed (c : Completion) : bool :=
  match c with
  | CompletionToolCall _ (ArgsObject _) => false
  | _ => true
  end.

(** The transcript the webhook persists. *)
Definition webhook_transcript (recording_data : RecordingData)
    (call_data : Session) : Transcript :=
  match default [] (rd_transcript recording_data) with
  | [] => default [] (full_transcript call_data)
  | t => t
  end.

(** The structured data the webhook persists. *)
Definition webhook_structured (call_data : Session) : Fields :=
  if decide (default ∅ (extracted_data call_data) = ∅)
  then minimal_fallback call_data
  else <["summary" := VStr (summary_of call_data)]>
         (default ∅ (extracted_data call_data)).

(** The call an action is about, if it names one. *)
Definition action_call_id (a : Action) : option string :=
  match a with
  | Receive _ => None
  | Webhook recording_data => rd_call_id recording_data
  | Register call_id _ => Some call_id
  end.

(** The call of a connection that is still in its loop. *)
Definition conn_call_id (c : Conn) : option string :=
  match c with
  | Open h => Some (h_call_id h)
  | Closed => None
  end.

(** The tool of a completion whose arguments parsed. *)
Definition selected_tool (c : Completion) : option string :=
  match c with
  | CompletionToolCall tool_name (ArgsObject _) => Some tool_name
  | _ => None
  end.

(** A message the loop has to answer. *)
Definition asks_for_response (m : Inbound) : Prop :=
  response_type m ≠ Some "ping_pong"
  ∧ interaction_type m = Some "response_required"
  ∧ last_user_input (default [] (in_transcript m)) ≠ "".

(** The adapter call of a turn. *)
Definition turn_call (h : Handler) (m : Inbound) (active_calls : Store)
    : PolicyCall :=
  let transcript := default [] (in_transcript m) in
  mkPolicyCall (last_user_input transcript) (h_driver_name h)
    (h_load_number h)
    (conversation_history transcript (last_user_input transcript))
    (default ∅ (extracted_data (call_data_of active_calls (h_call_id h)))).

(** The session a turn leaves in [active_calls]. *)
Definition turn_session (env : Env) (h : Handler) (m : Inbound)
    (active_calls : Store) : Session :=
  let call_data :=
    default (mkSession (Some (h_driver_name h)) (Some (h_load_number h))
                       None None None)
            (active_calls !! h_call_id h) in
  set_full_transcript (default [] (in_transcript m))
    (set_extracted_data
       (merge_extracted (default ∅ (extracted_data call_data))
                        (decide_reply (completion env)).2)
       call_data).

(** The response a turn sends. *)
Definition turn_response (env : Env) (m : Inbound) : Response :=
  mkResponse (default 1%Z (in_response_id m))
    (decide_reply (completion env)).1 true
    (default (VBool false)
             ((decide_reply (completion env)).2 !! "should_end_call")).

(** A key [update_call_result] has a clause for. *)
Definition is_column (field : string) : bool :=
  bool_decide (field ∈ scalar_columns)
  || bool_decide (field ∈ json_columns)
  || bool_decide (field = "call_ended_at").

Definition is_webhook (a : Action) : bool :=
  match a with Webhook _ => true | _ => false end.

(** The number of persistence writes in a trace. *)
Definition count_writes (trace : list Effect) : nat :=
  length (List.filter is_db_write trace).

(** ** Sample data *)

Module Sample.

Definition accumulated : Fields := {[ "eta" := VStr "5pm" ]}.

Definition turns : list Fields :=
  [ {[ "eta" := VStr ""; "current_location" := VStr "I-10" ]};
    {[ "eta" := VNone; "driver_status" := VStr "Driving" ]} ].

Definition call : PolicyCall :=
  mkPolicyCall "I'm stuck on I-10 after an accident" "Sam" "482" [] ∅.

Definition env (c : Completion) : Env :=
  mkEnv c true true (DbRowcount 1) 1700000000.

Definition handler : Handler := mkHandler "call_1" "Sam" "482".

Definition agent_says (s : string) : Entry := mkEntry (Some "agent") (Some s).
Definition user_says (s : string) : Entry := mkEntry (Some "user") (Some s).

Definition transcript : Transcript :=
  [ agent_says "Hi Sam, this is Dispatch calling about load 482.";
    user_says "  I'm on I-10 near Phoenix ";
    agent_says "What is your ETA?";
    user_says "Around 5pm";
    agent_says "   " ].

Definition quiet_transcript : Transcript :=
  [ agent_says "Hi Sam, this is Dispatch calling about load 482.";
    user_says "   " ].

Definition turn (t : Transcript) : Inbound :=
  mkInbound (Some "response_required") (Some 3%Z) None (Some t).

(** The adapter call expected for [turn transcript]. *)
Definition expected_call : PolicyCall :=
  mkPolicyCall "Around 5pm" "Sam" "482"
    [ mkMessage "assistant" "Hi Sam, this is Dispatch calling about load 482.";
      mkMessage "user" "I'm on I-10 near Phoenix";
      mkMessage "assistant" "What is your ETA?" ]
    ∅.

Definition sam : Session :=
  mkSession (Some "Sam") (Some "482") (Some "+15550100") None None.

Definition registered : Store := {[ "call_1" := sam ]}.

(** A schedule in which the call gets registered only after the
    connection was opened. *)
Definition late_registration : list (Env * Action) :=
  [ (env CompletionNoToolCalls,
     Register "call_1" (mkRequest (Some "Sam") None (Some "482")));
    (env (CompletionToolCall "handle_routine_checkin"
            (ArgsObject {[ "response_text" := VStr "What is your ETA?";
                           "confidence" := VNum (Num 9 1) ]})),
     Receive (RecvText (turn transcript))) ].

(** A tracked call with data and a transcript of its own. *)
Definition tracked : Store :=
  {[ "call_1" :=
       mkSession (Some "Sam") (Some "482") (Some "+15550100")
                 (Some {[ "current_location" := VStr "I-10 near Phoenix";
                          "eta" := VStr "5pm" ]})
                 (Some transcript) ]}.

(** The call-ended notification, with the platform's own transcript. *)
Definition recording : RecordingData :=
  mkRecording (Some "call_1") (Some [ user_says "Around 5pm, over." ]).

Definition env_db_down : Env :=
  mkEnv CompletionNoToolCalls true true DbRaises 1700000000.

(** The adapter call expected from [late_registration]. *)
Definition default_call : PolicyCall :=
  mkPolicyCall "Around 5pm" "Driver" "your load"
    (pc_conversation_history expected_call) ∅.

(** Two tracked calls. *)
Definition two_calls : Store :=
  <["call_2" := mkSession (Some "Ana") (Some "77") None None None]> tracked.

Definition env_tool (tool_name : string) (args : Fields) : Env :=
  env (CompletionToolCall tool_name (ArgsObject args)).

Definition env_routine : Env :=
  env_tool "handle_routine_checkin"
    {[ "response_text" := VStr "What is your ETA?";
       "current_location" := VStr "I-10 near Phoenix";
       "confidence" := VNum (Num 9 1) ]}.

Definition env_end_call : Env :=
  env_tool "end_call"
    {[ "response_text" := VStr "Thank you for the update, drive safely!";
       "call_complete" := VBool true;
       "reason" := VStr "All data collected";
       "confidence" := VNum (Num 9 1) ]}.

Definition tracked_session : Session :=
  mkSession (Some "Sam") (Some "482") (Some "+15550100")
            (Some {[ "current_location" := VStr "I-10 near Phoenix";
                     "eta" := VStr "5pm" ]})
            (Some transcript).

Definition env_no_service : Env :=
  mkEnv CompletionNoToolCalls true false DbRaises 1700000000.

Definition agents : list Agent :=
  [ mkAgent "agent_7" true "custom-llm" (Some 2%Z);
    mkAgent "agent_7" false "custom-llm" (Some 9%Z);
    mkAgent "agent_7" true "custom-llm" (Some 5%Z);
    mkAgent "agent_7" true "retell-llm" (Some 8%Z);
    mkAgent "agent_3" true "custom-llm" (Some 7%Z);
    mkAgent "agent_7" true "custom-llm" None ].

(** A dictionary for [update_call_result] with a key that is no column. *)
Definition update_data : list (string * UpdateValue) :=
  [ ("call_status", UScalar (VStr "completed"));
    ("call_ended_at", UTime 1700000000);
    ("full_transcript", UTranscript []);
    ("note", UScalar (VStr "left a voicemail"));
    ("eta", UScalar (VStr "5pm")) ].

Definition clauses : list SetClause :=
  [ SetParam "call_status"; SetNow "call_ended_at";
    SetParam "full_transcript"; SetParam "eta"; SetNow "updated_at" ].

Definition values : list SqlParam :=
  [ PValue (UScalar (VStr "completed")); PNull;
    PValue (UScalar (VStr "5pm")); PCallId (Some "call_1") ].

End Sample.

(** * Properties *)

(** ** Strings *)

Lemma lstrip_empty_iff (s : string) :
  PyStr.lstrip s = "" ↔ PyStr.blank s = true.
Proof.
  induction s as [|c s IH]; simpl; [done|].
  destruct (PyStr.is_space c); simpl; [exact IH|].
  split; discriminate.
Qed.

Lemma blank_rev_app (s1 s2 : string) :
  PyStr.blank (String.rev_app s1 s2) = PyStr.blank s1 && PyStr.blank s2.
Proof.
  revert s2. induction s1 as [|c s1 IH]; intros s2; simpl; [done|].
  rewrite IH. simpl.
  destruct (PyStr.is_space c), (PyStr.blank s1), (PyStr.blank s2); reflexivity.
Qed.

Lemma rev_app_empty (s1 s2 : string) :
  String.rev_app s1 s2 = "" → s1 = "" ∧ s2 = "".
Proof.
  revert s2. induction s1 as [|c s1 IH]; intros s2 H; simpl in H; [done|].
  apply IH in H as [_ H]. discriminate.
Qed.

Lemma blank_lstrip (s : string) :
  PyStr.blank (PyStr.lstrip s) = true → PyStr.lstrip s = "".
Proof.
  induction s as [|c s IH]; simpl; [done|].
  destruct (PyStr.is_space c) eqn:Hc; [exact IH|].
  simpl. rewrite Hc. discriminate.
Qed.

(** [strip] leaves nothing exactly when the string is all white space. *)
Lemma strip_empty_iff (s : string) :
  PyStr.strip s = "" ↔ PyStr.blank s = true.
Proof.
  unfold PyStr.strip, PyStr.rstrip, String.rev. split.
  - intros H. apply rev_app_empty in H as [H _].
    apply lstrip_empty_iff in H. rewrite blank_rev_app in H.
    apply andb_true_iff in H as [H _].
    apply blank_lstrip in H. by apply lstrip_empty_iff.
  - intros H. apply lstrip_empty_iff in H. rewrite H. reflexivity.
Qed.

Lemma truthy_true_iff (s : string) : PyStr.truthy s = true ↔ s ≠ "".
Proof. destruct s; simpl; split; congruence. Qed.

Lemma truthy_false_iff (s : string) : PyStr.truthy s = false ↔ s = "".
Proof. destruct s; simpl; split; congruence. Qed.

(** ** The merge *)

(** What one merge leaves under each key. *)
Lemma merge_extracted_lookup (accumulated incoming : Fields) (k : string) :
  merge_extracted accumulated incoming !! k =
  match incoming !! k with
  | Some v => if kept v then Some v else accumulated !! k
  | None => accumulated !! k
  end.
Proof.
  unfold merge_extracted, dict_update, non_empty_items.
  rewrite lookup_union.
  destruct (filter _ incoming !! k) as [w|] eqn:Hf.
  - apply map_lookup_filter_Some in Hf as [Hk Hw]. simpl in Hw.
    rewrite Hk, Hw. by destruct (accumulated !! k).
  - apply map_lookup_filter_None in Hf as [Hk | Hk].
    + rewrite Hk. by destruct (accumulated !! k).
    + destruct (incoming !! k) as [v|] eqn:Hv.
      * specialize (Hk v eq_refl). simpl in Hk.
        destruct (kept v); [done|]. by destruct (accumulated !! k).
      * by destruct (accumulated !! k).
Qed.

Lemma merge_extracted_populated (accumulated incoming : Fields) (k : string) :
  populated accumulated k → populated (merge_extracted accumulated incoming) k.
Proof.
  intros (v & Hv & Hk). unfold populated. rewrite merge_extracted_lookup.
  destruct (incoming !! k) as [w|]; [|eauto].
  destruct (kept w) eqn:Hw; eauto.
Qed.

Lemma merge_all_populated (turns : list Fields) (accumulated : Fields)
    (k : string) :
  populated accumulated k → populated (merge_all accumulated turns) k.
Proof.
  revert accumulated. induction turns as [|incoming turns IH]; intros acc H.
  - exact H.
  - simpl. apply IH. by apply merge_extracted_populated.
Qed.

(** Where the value found under a key after a run of merges comes from. *)
Lemma merge_all_origin (turns : list Fields) (accumulated : Fields)
    (k : string) (v : value) :
  merge_all accumulated turns !! k = Some v →
  accumulated !! k = Some v
  ∨ ∃ incoming, incoming ∈ turns ∧ incoming !! k = Some v ∧ kept v = true.
Proof.
  revert accumulated. induction turns as [|incoming turns IH]; intros acc H.
  - by left.
  - simpl in H. apply IH in H as [H | (i & Hi & Hk & Hv)].
    + rewrite merge_extracted_lookup in H.
      destruct (incoming !! k) as [w|] eqn:Hw; [|by left].
      destruct (kept w) eqn:Hkw; [|by left].
      injection H as ->. right. exists incoming. split; [left|done].
    + right. exists i. split; [by right|done].
Qed.

(** C2: across any sequence of merges into the extracted data, a field
    that holds a non-empty value keeps holding a non-empty value: an
    incoming [None], an incoming empty string and a missing key leave it
    alone.  Whatever a field holds afterwards is what it held before or a
    non-empty value that one of the merges brought. *)
Theorem merge_never_reverts_populated (accumulated : Fields)
    (turns : list Fields) (k : string) :
  populated accumulated k →
  populated (merge_all accumulated turns) k
  ∧ ∀ w, merge_all accumulated turns !! k = Some w →
         accumulated !! k = Some w
         ∨ ∃ incoming, incoming ∈ turns ∧ incoming !! k = Some w
                       ∧ kept w = true.
Proof.
  intros H. split.
  - by apply merge_all_populated.
  - intros w. apply merge_all_origin.
Qed.

Lemma merge_never_reverts_populated_witness :
  populated Sample.accumulated "eta"
  ∧ populated (merge_all Sample.accumulated Sample.turns) "eta".
Proof.
  assert (H : populated Sample.accumulated "eta").
  { exists (VStr "5pm"). split; vm_compute; reflexivity. }
  split; [exact H|].
  exact (proj1 (merge_never_reverts_populated
                  Sample.accumulated Sample.turns "eta" H)).
Defined.

(** ** The adapter *)

Lemma tag_tool_is_emergency (tool_name : string) (args : Fields) :
  tag_tool tool_name args !! "is_emergency"
  = Some (VBool (bool_decide (tool_name = "handle_emergency_protocol"))).
Proof.
  unfold tag_tool. rewrite lookup_insert_ne by done. apply lookup_insert_eq.
Qed.

Lemma tag_tool_should_end_call (tool_name : string) (args : Fields) :
  tag_tool tool_name args !! "should_end_call"
  = Some (VBool (bool_decide (tool_name = "end_call"))).
Proof. unfold tag_tool. apply lookup_insert_eq. Qed.

Lemma error_fields_no_end_call (err : string) :
  error_fields err !! "should_end_call" = None.
Proof. unfold error_fields. by repeat rewrite lookup_insert_ne by done. Qed.

Lemma no_tool_fields_no_end_call : no_tool_fields !! "should_end_call" = None.
Proof. reflexivity. Qed.

(** Only a parsed [end_call] tool call raises the end-call flag. *)
Lemma should_end_call_only_end_call (c : Completion) :
  (decide_reply c).2 !! "should_end_call" = Some (VBool true) →
  ∃ args, c = CompletionToolCall "end_call" (ArgsObject args).
Proof.
  destruct c as [err | | tool_name [err | args]]; simpl.
  - by rewrite error_fields_no_end_call.
  - by rewrite no_tool_fields_no_end_call.
  - by rewrite error_fields_no_end_call.
  - rewrite tag_tool_should_end_call. intros [= H].
    apply bool_decide_eq_true in H. subst. eauto.
Qed.

(** C6: when the completion carries a tool call whose arguments parse,
    the fields the adapter returns have [is_emergency] equal to "the tool
    is [handle_emergency_protocol]" and [should_end_call] equal to "the
    tool is [end_call]"; so the emergency tool gives [is_emergency = True]
    with [should_end_call = False], and whatever the completion did, the
    end-call flag is raised only by the [end_call] tool. *)
Theorem tool_call_sets_derived_flags (call : PolicyCall) (tool_name : string)
    (args : Fields) :
  let fields :=
    (generate_llm_response_with_extraction call
       (CompletionToolCall tool_name (ArgsObject args))).2.2 in
  fields !! "is_emergency"
  = Some (VBool (bool_decide (tool_name = "handle_emergency_protocol")))
  ∧ fields !! "should_end_call"
    = Some (VBool (bool_decide (tool_name = "end_call")))
  ∧ (tool_name = "handle_emergency_protocol" →
     fields !! "is_emergency" = Some (VBool true)
     ∧ fields !! "should_end_call" = Some (VBool false))
  ∧ ∀ c, (generate_llm_response_with_extraction call c).2.2
           !! "should_end_call" = Some (VBool true) →
         ∃ args', c = CompletionToolCall "end_call" (ArgsObject args').
Proof.
  simpl. rewrite tag_tool_is_emergency, tag_tool_should_end_call.
  split; [reflexivity|]. split; [reflexivity|]. split.
  - intros ->. by split.
  - intros c. apply should_end_call_only_end_call.
Qed.

(** ** The scan for the utterance *)

Lemma find_app_Some {A} (f : A → bool) (l1 l2 : list A) (x : A) :
  (∀ y, y ∈ l1 → f y = false) → f x = true →
  find f (l1 ++ x :: l2) = Some x.
Proof.
  intros Hl1 Hx. induction l1 as [|y l1 IH]; simpl.
  - by rewrite Hx.
  - rewrite (Hl1 y) by left. apply IH. intros z Hz. apply Hl1. by right.
Qed.

Lemma find_all_false {A} (f : A → bool) (l : list A) :
  (∀ y, y ∈ l → f y = false) → find f l = None.
Proof.
  intros Hl. induction l as [|y l IH]; simpl; [done|].
  rewrite (Hl y) by left. apply IH. intros z Hz. apply Hl. by right.
Qed.

Lemma elem_of_rev {A} (x : A) (l : list A) : x ∈ rev l → x ∈ l.
Proof. rewrite !list_elem_of_In. apply in_rev. Qed.

(** An entry fails the scan's test unless the user said something in it. *)
Lemma is_user_utterance_false (e : Entry) :
  (role e = Some "user" → PyStr.blank (default "" (content e)) = true) →
  is_user_utterance e = false.
Proof.
  intros H. unfold is_user_utterance, stripped_content.
  destruct (bool_decide (role e = Some "user")) eqn:Hr; [|done].
  apply bool_decide_eq_true in Hr. apply H, strip_empty_iff in Hr.
  by rewrite Hr.
Qed.

Lemma is_user_utterance_true (e : Entry) :
  role e = Some "user" → PyStr.blank (default "" (content e)) = false →
  is_user_utterance e = true.
Proof.
  intros Hr Hb. unfold is_user_utterance, stripped_content.
  rewrite bool_decide_eq_true_2 by done. simpl.
  apply truthy_true_iff. intros He. apply strip_empty_iff in He. congruence.
Qed.

Lemma last_user_input_none (transcript : Transcript) :
  (∀ e, e ∈ transcript → role e = Some "user" →
        PyStr.blank (default "" (content e)) = true) →
  last_user_input transcript = "".
Proof.
  intros H. unfold last_user_input. rewrite find_all_false; [done|].
  intros e He. apply is_user_utterance_false.
  apply H. by apply elem_of_rev in He.
Qed.

Lemma last_user_input_last (before after : Transcript) (e : Entry) :
  role e = Some "user" → PyStr.blank (default "" (content e)) = false →
  (∀ e', e' ∈ after → role e' = Some "user" →
         PyStr.blank (default "" (content e')) = true) →
  last_user_input (before ++ e :: after) = stripped_content e.
Proof.
  intros Hr Hb Hafter. unfold last_user_input.
  rewrite rev_app_distr. simpl. rewrite <- app_assoc. simpl.
  rewrite (find_app_Some _ _ _ e); [done| |by apply is_user_utterance_true].
  intros e' He'. apply is_user_utterance_false.
  apply Hafter. by apply elem_of_rev in He'.
Qed.

Lemma stripped_content_nonempty (e : Entry) :
  PyStr.blank (default "" (content e)) = false → stripped_content e ≠ "".
Proof. intros Hb He. apply strip_empty_iff in He. congruence. Qed.

(** ** One turn *)

(** Without an utterance the branch does nothing at all. *)
Lemma response_required_silent (env : Env) (h : Handler) (m : Inbound)
    (active_calls : Store) :
  last_user_input (default [] (in_transcript m)) = "" →
  response_required env h m active_calls = (active_calls, [], Continue).
Proof. intros H. unfold response_required. by rewrite H. Qed.

(** With an utterance: one adapter call, one merge, one response. *)
Lemma response_required_speaks (env : Env) (h : Handler) (m : Inbound)
    (active_calls : Store) :
  let transcript := default [] (in_transcript m) in
  let user_input := last_user_input transcript in
  let call_data :=
    default (mkSession (Some (h_driver_name h)) (Some (h_load_number h))
                       None None None)
            (active_calls !! h_call_id h) in
  let fields := (decide_reply (completion env)).2 in
  user_input ≠ "" →
  response_required env h m active_calls =
  (<[h_call_id h :=
       set_full_transcript transcript
         (set_extracted_data
            (merge_extracted (default ∅ (extracted_data call_data)) fields)
            call_data)]> active_calls,
   [EPolicy (mkPolicyCall user_input (h_driver_name h) (h_load_number h)
               (conversation_history transcript user_input)
               (default ∅ (extracted_data
                             (call_data_of active_calls (h_call_id h)))));
    ESend (mkResponse (default 1%Z (in_response_id m))
                      (decide_reply (completion env)).1 true
                      (default (VBool false) (fields !! "should_end_call")))],
   if send_ok env then Continue else Break).
Proof.
  intros transcript user_input call_data fields H.
  apply truthy_true_iff in H. unfold response_required.
  fold transcript. fold user_input. rewrite H.
  unfold generate_llm_response_with_extraction.
  subst fields. by destruct (decide_reply (completion env)).
Qed.

(** The adapter call a turn makes for the transcript of [m]. *)
Lemma loop_iteration_policy_call (env : Env) (h : Handler) (r : Received)
    (active_calls : Store) (call : PolicyCall) :
  EPolicy call ∈ (loop_iteration env h r active_calls).1.2 →
  ∃ m, r = RecvText m
       ∧ response_type m ≠ Some "ping_pong"
       ∧ interaction_type m = Some "response_required"
       ∧ last_user_input (default [] (in_transcript m)) ≠ ""
       ∧ call = mkPolicyCall
                  (last_user_input (default [] (in_transcript m)))
                  (h_driver_name h) (h_load_number h)
                  (conversation_history (default [] (in_transcript m))
                     (last_user_input (default [] (in_transcript m))))
                  (default ∅ (extracted_data
                                (call_data_of active_calls (h_call_id h)))).
Proof.
  destruct r as [| | |m]; simpl; try (intros H; by apply elem_of_nil in H).
  case_bool_decide as Hping; [intros H; by apply elem_of_nil in H|].
  case_bool_decide as Htype; [|intros H; by apply elem_of_nil in H].
  destruct (decide (last_user_input (default [] (in_transcript m)) = ""))
    as [Hu|Hu].
  - rewrite response_required_silent by done.
    intros H. by apply elem_of_nil in H.
  - rewrite response_required_speaks by done. simpl.
    intros H. exists m. repeat (split; [done|]).
    apply elem_of_cons in H as [H|H]; [congruence|].
    apply elem_of_cons in H as [H|H]; [discriminate|].
    by apply elem_of_nil in H.
Qed.

Lemma finalize_no_policy_call (env : Env) (call_id : string)
    (active_calls : Store) (call : PolicyCall) :
  EPolicy call ∉ (finalize_call_on_disconnect env call_id active_calls).2.
Proof.
  unfold finalize_call_on_disconnect. destruct (db_service env); simpl.
  - intros H. apply elem_of_cons in H as [H|H]; [discriminate|].
    by apply elem_of_nil in H.
  - apply not_elem_of_nil.
Qed.

Lemma webhook_no_policy_call (env : Env) (recording_data : RecordingData)
    (active_calls : Store) (call : PolicyCall) :
  EPolicy call ∉ (recording_webhook env recording_data active_calls).1.2.
Proof.
  unfold recording_webhook.
  destruct (decide (_ = ∅)); destruct (db_service env); simpl;
    try apply not_elem_of_nil;
    intros H; (apply elem_of_cons in H as [H|H]; [discriminate|]);
    by apply elem_of_nil in H.
Qed.

(** Every adapter call of a step is the one of a turn of the connection. *)
Lemma system_step_policy_call (env : Env) (a : Action) (c : Conn)
    (active_calls : Store) (call : PolicyCall) :
  EPolicy call ∈ (system_step env a c active_calls).2 →
  ∃ h r, c = Open h ∧ a = Receive r
         ∧ EPolicy call ∈ (loop_iteration env h r active_calls).1.2.
Proof.
  destruct a as [r | rd | cid req], c as [h|]; simpl;
    try (intros H; by apply elem_of_nil in H).
  - destruct (loop_iteration env h r active_calls) as [[s t] l] eqn:Hl.
    destruct l; simpl.
    + intros H. exists h, r. by rewrite Hl.
    + pose proof (finalize_no_policy_call env (h_call_id h) s call) as Hf.
      destruct (finalize_call_on_disconnect env (h_call_id h) s) as [s' t'].
      simpl in *. intros H. apply elem_of_app in H as [H|H]; [|done].
      exists h, r. by rewrite Hl.
  - pose proof (webhook_no_policy_call env rd active_calls call) as Hw.
    by destruct (recording_webhook env rd active_calls) as [[s t] w].
  - pose proof (webhook_no_policy_call env rd active_calls call) as Hw.
    by destruct (recording_webhook env rd active_calls) as [[s t] w].
Qed.

(** ** Adapter failures *)

Lemma error_fields_error (err : string) :
  error_fields err !! "error" = Some (VStr err).
Proof. unfold error_fields. by repeat rewrite lookup_insert_ne by done. Qed.

(** C4, as stated, fails when the completion comes back without a tool
    call: the adapter is in a failure case, yet the fields it returns
    carry confidence 0.5 and a call outcome, and no error at all. *)
Lemma no_tool_call_fields_not_error_shaped :
  adapter_failed CompletionNoToolCalls = true
  ∧ let fields :=
      (generate_llm_response_with_extraction Sample.call
         CompletionNoToolCalls).2.2 in
    fields !! "confidence" = Some (VNum (Num 5 1))
    ∧ fields !! "call_outcome" = Some (VStr "In Progress")
    ∧ fields !! "error" = None
    ∧ ∀ kind, fields ≠ error_fields kind.
Proof.
  split; [reflexivity|]. simpl.
  split; [reflexivity|]. split; [reflexivity|]. split; [reflexivity|].
  intros kind H.
  assert (Hk : no_tool_fields !! "error" = Some (VStr kind))
    by (rewrite H; apply error_fields_error).
  discriminate Hk.
Qed.

(** What the adapter returns in each failure case. *)
Lemma decide_reply_failed (c : Completion) :
  adapter_failed c = true →
  decide_reply c
  = (VStr fallback_reply,
     match adapter_error c with
     | Some err => error_fields err
     | None => no_tool_fields
     end).
Proof. by destruct c as [err | | tool_name [err | args]]. Qed.

Lemma failed_fields_no_end_call (c : Completion) :
  adapter_failed c = true → (decide_reply c).2 !! "should_end_call" = None.
Proof.
  destruct c as [err | | tool_name [err | args]]; simpl; try done;
    intros _; apply error_fields_no_end_call.
Qed.

(** C4 (amended): when the completion call raises or the tool arguments
    do not parse, the adapter returns the fallback reply with the fields
    [{is_emergency: False, confidence: 0.1, error: <message>}]; when the
    completion carries no tool call it returns the same reply with
    [{is_emergency: False, confidence: 0.5, call_outcome: "In Progress"}].
    In each case the turn sends that reply with [end_call = False], keeps
    the session in [active_calls], and, the send going through, the
    connection stays in its loop. *)
Theorem adapter_failure_falls_back (env : Env) (h : Handler) (m : Inbound)
    (active_calls : Store) :
  adapter_failed (completion env) = true →
  interaction_type m = Some "response_required" →
  response_type m ≠ Some "ping_pong" →
  last_user_input (default [] (in_transcript m)) ≠ "" →
  send_ok env = true →
  (∀ call, (generate_llm_response_with_extraction call (completion env)).2
           = (VStr fallback_reply,
              match adapter_error (completion env) with
              | Some err => error_fields err
              | None => no_tool_fields
              end))
  ∧ ∃ call active_calls',
      system_step env (Receive (RecvText m)) (Open h) active_calls
      = (Open h, active_calls',
         [EPolicy call;
          ESend (mkResponse (default 1%Z (in_response_id m))
                            (VStr fallback_reply) true (VBool false))])
      ∧ is_Some (active_calls' !! h_call_id h).
Proof.
  intros Hfail Htype Hping Hu Hsend. split.
  - intros call. simpl. by apply decide_reply_failed.
  - simpl. rewrite bool_decide_eq_false_2 by done.
    rewrite bool_decide_eq_true_2 by done.
    rewrite response_required_speaks by done.
    rewrite Hsend, failed_fields_no_end_call by done.
    rewrite decide_reply_failed by done. simpl.
    eexists _, _. split; [reflexivity|].
    rewrite lookup_insert_eq. eauto.
Qed.

Lemma adapter_failure_falls_back_witness :
  ∃ call active_calls',
    system_step (Sample.env (CompletionRaises "Request timed out."))
      (Receive (RecvText (Sample.turn Sample.transcript)))
      (Open Sample.handler) ∅
    = (Open Sample.handler, active_calls',
       [EPolicy call;
        ESend (mkResponse 3 (VStr fallback_reply) true (VBool false))])
    ∧ is_Some (active_calls' !! "call_1").
Proof.
  refine (proj2 (adapter_failure_falls_back
                   (Sample.env (CompletionRaises "Request timed out."))
                   Sample.handler (Sample.turn Sample.transcript) ∅
                   _ _ _ _ _)).
  - reflexivity.
  - reflexivity.
  - discriminate.
  - vm_compute. discriminate.
  - reflexivity.
Defined.

(** ** Turns with and without an utterance *)

(** C7: a [response_required] message whose transcript has no user entry
    with non-blank content makes the turn loop do nothing: no adapter
    call, no response sent, [active_calls] unchanged, and the loop goes on
    waiting.  When there is such an entry, the last one of them, stripped,
    is the utterance: no other utterance is ever handed to the adapter,
    and unless the message is a [ping_pong] the adapter is called. *)
Theorem turn_without_utterance_is_silent (env : Env) (h : Handler)
    (m : Inbound) (active_calls : Store) :
  interaction_type m = Some "response_required" →
  ((∀ e, e ∈ default [] (in_transcript m) → role e = Some "user" →
         PyStr.blank (default "" (content e)) = true) →
   system_step env (Receive (RecvText m)) (Open h) active_calls
   = (Open h, active_calls, []))
  ∧ ∀ (before : Transcript) (e : Entry) (after : Transcript),
      default [] (in_transcript m) = (before ++ e :: after)%list →
      role e = Some "user" →
      PyStr.blank (default "" (content e)) = false →
      (∀ e', e' ∈ after → role e' = Some "user" →
             PyStr.blank (default "" (content e')) = true) →
      let done :=
        (system_step env (Receive (RecvText m)) (Open h) active_calls).2 in
      last_user_input (default [] (in_transcript m)) = stripped_content e
      ∧ (∀ call, EPolicy call ∈ done →
                 pc_user_input call = stripped_content e)
      ∧ (response_type m ≠ Some "ping_pong" → ∃ call, EPolicy call ∈ done).
Proof.
  intros Htype. split.
  - intros Hnone. apply last_user_input_none in Hnone. simpl.
    case_bool_decide; [done|].
    rewrite bool_decide_eq_true_2 by done.
    by rewrite response_required_silent.
  - intros before e after Ht Hr Hb Hafter done.
    assert (Hu : last_user_input (default [] (in_transcript m))
                 = stripped_content e).
    { rewrite Ht. by apply last_user_input_last. }
    split; [exact Hu|]. split.
    + intros call Hcall.
      apply system_step_policy_call in Hcall as (h' & r & _ & Hr' & Hcall).
      apply loop_iteration_policy_call in Hcall as (m' & -> & _ & _ & _ & ->).
      simpl. injection Hr' as <-. exact Hu.
    + intros Hping. subst done. simpl.
      rewrite bool_decide_eq_false_2 by done.
      rewrite bool_decide_eq_true_2 by done.
      rewrite response_required_speaks
        by (rewrite Hu; by apply stripped_content_nonempty).
      eexists. destruct (send_ok env).
      * left.
      * destruct (finalize_call_on_disconnect _ _ _). left.
Qed.

Lemma turn_without_utterance_is_silent_witness :
  system_step (Sample.env CompletionNoToolCalls)
    (Receive (RecvText (Sample.turn Sample.quiet_transcript)))
    (Open Sample.handler) ∅
  = (Open Sample.handler, ∅, []).
Proof.
  refine (proj1 (turn_without_utterance_is_silent
                   (Sample.env CompletionNoToolCalls) Sample.handler
                   (Sample.turn Sample.quiet_transcript) ∅ _) _).
  - reflexivity.
  - intros e He Hr.
    repeat (apply elem_of_cons in He as [->|He]; [try discriminate Hr|]).
    + reflexivity.
    + by apply elem_of_nil in He.
Defined.

(** ** The context of a turn *)

Lemma filter_sublist {A} (f : A → bool) (l : list A) :
  List.filter f l `sublist_of` l.
Proof.
  induction l as [|x l IH]; simpl; [constructor|].
  destruct (f x); by constructor.
Qed.

Lemma last_n_length {A} (n : nat) (l : list A) :
  (length (last_n n l) ≤ n)%nat.
Proof. unfold last_n. rewrite length_drop. lia. Qed.

Lemma in_history_content (u : string) (e : Entry) :
  in_history u e = true → msg_content (history_message e) ≠ u.
Proof.
  unfold in_history, history_message, stripped_content. simpl.
  destruct (content e) as [c|]; [|done]. simpl.
  intros H. apply andb_true_iff in H as [_ H].
  apply negb_true_iff, bool_decide_eq_false in H. exact H.
Qed.

Lemma history_contents (u : string) (l : Transcript) :
  Forall (λ msg, msg_content msg ≠ u)
         (history_message <$> List.filter (in_history u) l).
Proof.
  induction l as [|e l IH]; simpl; [constructor|].
  destruct (in_history u e) eqn:He; [|exact IH].
  rewrite fmap_cons. constructor; [by apply in_history_content|exact IH].
Qed.

Lemma conversation_history_length (t : Transcript) (u : string) :
  (length (conversation_history t u) ≤ 6)%nat.
Proof. apply last_n_length. Qed.

Lemma conversation_history_sublist (t : Transcript) (u : string) :
  conversation_history t u `sublist_of` (history_message <$> all_but_last t).
Proof.
  unfold conversation_history, last_n.
  etrans; [apply sublist_drop|]. apply fmap_sublist, filter_sublist.
Qed.

Lemma conversation_history_contents (t : Transcript) (u : string) :
  Forall (λ msg, msg_content msg ≠ u) (conversation_history t u).
Proof. apply Forall_drop, history_contents. Qed.

Lemma last_user_input_nil : last_user_input [] = "".
Proof. reflexivity. Qed.

(** C8: on a [response_required] message with a non-empty utterance, the
    history handed to the adapter has at most 6 messages; it is drawn, in
    order, from the entries of the inbound transcript before its last one
    (each with its content stripped and its role mapped to [assistant] or
    [user]); and none of its messages has the utterance as content. *)
Theorem policy_context_is_bounded (env : Env) (h : Handler) (m : Inbound)
    (active_calls : Store) (call : PolicyCall) :
  interaction_type m = Some "response_required" →
  last_user_input (default [] (in_transcript m)) ≠ "" →
  EPolicy call
    ∈ (system_step env (Receive (RecvText m)) (Open h) active_calls).2 →
  pc_user_input call = last_user_input (default [] (in_transcript m))
  ∧ (length (pc_conversation_history call) ≤ 6)%nat
  ∧ (∃ (init : Transcript) (final : Entry),
       default [] (in_transcript m) = (init ++ [final])%list
       ∧ pc_conversation_history call `sublist_of` (history_message <$> init))
  ∧ Forall (λ msg, msg_content msg ≠ pc_user_input call)
           (pc_conversation_history call).
Proof.
  intros _ Hu Hcall.
  apply system_step_policy_call in Hcall as (h' & r & _ & Hr & Hcall).
  apply loop_iteration_policy_call in Hcall as (m' & -> & _ & _ & _ & ->).
  injection Hr as <-. simpl.
  split; [done|]. split; [apply conversation_history_length|]. split.
  - destruct (default [] (in_transcript m)) as [|e t] eqn:Ht; [done|].
    destruct (exists_last (l := e :: t)) as (init & final & Hlast); [done|].
    exists init, final. split; [done|].
    rewrite Hlast. etrans; [apply conversation_history_sublist|].
    unfold all_but_last. by rewrite removelast_last.
  - apply conversation_history_contents.
Qed.

Lemma policy_context_is_bounded_witness :
  pc_user_input Sample.expected_call = "Around 5pm"
  ∧ (length (pc_conversation_history Sample.expected_call) ≤ 6)%nat
  ∧ Forall (λ msg, msg_content msg ≠ "Around 5pm")
           (pc_conversation_history Sample.expected_call).
Proof.
  destruct (policy_context_is_bounded
              (Sample.env CompletionNoToolCalls) Sample.handler
              (Sample.turn Sample.transcript) ∅ Sample.expected_call)
    as (Hu & Hlen & _ & Hall).
  - reflexivity.
  - vm_compute. discriminate.
  - vm_compute. left.
  - split; [reflexivity|]. split; [exact Hlen|exact Hall].
Defined.

(** ** The greeting *)

Lemma finalize_trace_shape (env : Env) (call_id : string)
    (active_calls : Store) :
  Forall (λ e, is_db_write e = true)
         (finalize_call_on_disconnect env call_id active_calls).2.
Proof.
  unfold finalize_call_on_disconnect. destruct (db_service env); simpl.
  - by repeat constructor.
  - constructor.
Qed.

Lemma llm_websocket_open_trace (env : Env) (call_id : string)
    (active_calls : Store) :
  ∃ rest,
    (llm_websocket_open env call_id active_calls).2
    = ESend (first_response (accept call_id active_calls)) :: rest
    ∧ Forall (λ e, is_db_write e = true) rest.
Proof.
  unfold llm_websocket_open. destruct (send_ok env); simpl.
  - exists []. by split.
  - pose proof (finalize_trace_shape env call_id active_calls) as H.
    destruct (finalize_call_on_disconnect env call_id active_calls) as [s t].
    exists t. by split.
Qed.

(** C9: for a call registered with a driver name and a load number, the
    first thing the connection does is send the greeting built from the
    template with these two, as response 0 with [end_call = False], and
    opening the connection makes no adapter call.  Registered as "Sam"
    with load "482", the greeting reads "Hi Sam, this is Dispatch calling
    about load 482. Can you give me an update on your status?". *)
Theorem greeting_is_templated (env : Env) (call_id : string)
    (active_calls : Store) (s : Session) (driver load : string) :
  active_calls !! call_id = Some s →
  driver_name s = Some driver →
  load_number s = Some load →
  let done := (llm_websocket_open env call_id active_calls).2 in
  (∃ rest,
     done = ESend (mkResponse 0
               (VStr (generate_first_message_simple driver load))
               true (VBool false)) :: rest)
  ∧ (∀ call, EPolicy call ∉ done)
  ∧ (driver = "Sam" → load = "482" →
     generate_first_message_simple driver load
     = "Hi Sam, this is Dispatch calling about load 482. Can you give me an update on your status?").
Proof.
  intros Hs Hd Hl done.
  destruct (llm_websocket_open_trace env call_id active_calls)
    as (rest & Hdone & Hrest).
  fold done in Hdone. split; [|split].
  - exists rest. rewrite Hdone. unfold first_response, accept, call_data_of.
    rewrite Hs. simpl. by rewrite Hd, Hl.
  - intros call Hcall. rewrite Hdone in Hcall.
    apply elem_of_cons in Hcall as [Hcall|Hcall]; [discriminate|].
    rewrite Forall_forall in Hrest. by apply Hrest in Hcall.
  - by intros -> ->.
Qed.

Lemma greeting_is_templated_witness :
  ∃ rest,
    (llm_websocket_open (Sample.env CompletionNoToolCalls) "call_1"
       Sample.registered).2
    = ESend (mkResponse 0
        (VStr "Hi Sam, this is Dispatch calling about load 482. Can you give me an update on your status?")
        true (VBool false)) :: rest.
Proof.
  refine (proj1 (greeting_is_templated (Sample.env CompletionNoToolCalls)
                   "call_1" Sample.registered Sample.sam "Sam" "482"
                   _ _ _)).
  - reflexivity.
  - reflexivity.
  - reflexivity.
Defined.

(** ** The variables of a connection *)

(** A step leaves the connection as it is or closes it. *)
Lemma system_step_conn (env : Env) (a : Action) (c : Conn)
    (active_calls : Store) :
  (system_step env a c active_calls).1.1 = c
  ∨ (system_step env a c active_calls).1.1 = Closed.
Proof.
  destruct a as [r | rd | cid req], c as [h|]; simpl; auto.
  - destruct (loop_iteration env h r active_calls) as [[s t] []]; simpl; auto.
    destruct (finalize_call_on_disconnect env (h_call_id h) s); auto.
  - destruct (recording_webhook env rd active_calls) as [[s t] w]; auto.
  - destruct (recording_webhook env rd active_calls) as [[s t] w]; auto.
Qed.

(** Every adapter call of a schedule carries the variables the connection
    read when it was opened, whatever happens to [active_calls] since. *)
Lemma run_policy_call (schedule : list (Env * Action)) (c : Conn)
    (active_calls : Store) (call : PolicyCall) :
  EPolicy call ∈ (run schedule c active_calls).2 →
  ∃ h, c = Open h
       ∧ pc_driver_name call = h_driver_name h
       ∧ pc_load_number call = h_load_number h.
Proof.
  revert c active_calls.
  induction schedule as [|[env a] schedule IH]; intros c active_calls; simpl.
  - intros H. by apply elem_of_nil in H.
  - pose proof (system_step_conn env a c active_calls) as Hc.
    pose proof (system_step_policy_call env a c active_calls call) as Hstep.
    destruct (system_step env a c active_calls) as [[c1 s1] t1].
    specialize (IH c1 s1).
    destruct (run schedule c1 s1) as [[c2 s2] t2]. simpl in *.
    intros H. apply elem_of_app in H as [H|H].
    + destruct (Hstep H) as (h & r & -> & _ & Hcall).
      apply loop_iteration_policy_call in Hcall as (m & _ & _ & _ & _ & ->).
      by exists h.
    + destruct (IH H) as (h & -> & Hd & Hl).
      destruct Hc as [<- | Hc]; [|discriminate]. by exists h.
Qed.

Lemma llm_websocket_open_conn (env : Env) (call_id : string)
    (active_calls : Store) :
  (llm_websocket_open env call_id active_calls).1.1
  = Open (accept call_id active_calls)
  ∨ (llm_websocket_open env call_id active_calls).1.1 = Closed.
Proof.
  unfold llm_websocket_open. destruct (send_ok env); simpl; auto.
  destruct (finalize_call_on_disconnect env call_id active_calls); auto.
Qed.

(** C10: for a call that is not in [active_calls] when the connection is
    opened, the greeting sent is "Hi Driver, this is Dispatch calling
    about load your load. Can you give me an update on your status?", and
    every adapter call of the connection, through any later receives,
    webhooks and registrations, is made with the driver name "Driver" and
    the load number "your load". *)
Theorem unregistered_call_uses_defaults (env : Env) (call_id : string)
    (active_calls : Store) (schedule : list (Env * Action)) :
  active_calls !! call_id = None →
  let opened := llm_websocket_open env call_id active_calls in
  (∃ rest,
     opened.2
     = ESend (mkResponse 0
         (VStr "Hi Driver, this is Dispatch calling about load your load. Can you give me an update on your status?")
         true (VBool false)) :: rest)
  ∧ ∀ call, EPolicy call ∈ (run schedule opened.1.1 opened.1.2).2 →
            pc_driver_name call = "Driver"
            ∧ pc_load_number call = "your load".
Proof.
  intros Hnone opened. split.
  - destruct (llm_websocket_open_trace env call_id active_calls)
      as (rest & Hdone & _).
    exists rest. subst opened. rewrite Hdone.
    unfold first_response, accept, call_data_of. by rewrite Hnone.
  - intros call Hcall.
    apply run_policy_call in Hcall as (h & Hh & -> & ->).
    destruct (llm_websocket_open_conn env call_id active_calls) as [Ho|Ho];
      subst opened; rewrite Ho in Hh; [|discriminate].
    injection Hh as <-. unfold accept, call_data_of. by rewrite Hnone.
Qed.

Lemma unregistered_call_uses_defaults_witness :
  EPolicy Sample.default_call
    ∈ (run Sample.late_registration
         (llm_websocket_open (Sample.env CompletionNoToolCalls)
            "call_1" ∅).1.1
         (llm_websocket_open (Sample.env CompletionNoToolCalls)
            "call_1" ∅).1.2).2
  ∧ pc_driver_name Sample.default_call = "Driver"
  ∧ pc_load_number Sample.default_call = "your load".
Proof.
  assert (H : EPolicy Sample.default_call
                ∈ (run Sample.late_registration
                     (llm_websocket_open (Sample.env CompletionNoToolCalls)
                        "call_1" ∅).1.1
                     (llm_websocket_open (Sample.env CompletionNoToolCalls)
                        "call_1" ∅).1.2).2).
  { vm_compute. left. }
  split; [exact H|].
  refine (proj2 (unregistered_call_uses_defaults
                   (Sample.env CompletionNoToolCalls) "call_1" ∅
                   Sample.late_registration _) Sample.default_call H).
  reflexivity.
Defined.

(** The connection of the sample schedule was opened before the call was
    registered: its one adapter call is made with the defaults. *)
Example late_registration_keeps_defaults :
  policy_calls
    (run Sample.late_registration
       (llm_websocket_open (Sample.env CompletionNoToolCalls) "call_1" ∅).1.1
       (llm_websocket_open (Sample.env CompletionNoToolCalls) "call_1" ∅).1.2).2
  = [ Sample.default_call ].
Proof. vm_compute. reflexivity. Qed.

(** ** Finalization *)

Lemma update_call_result_failed (o : DbOutcome) (call_id : option string)
    (update_data : UpdateData) :
  o = DbRaises ∨ o = DbRowcount 0 →
  update_call_result o call_id update_data = false.
Proof. by intros [-> | ->]. Qed.

(** With the database service at hand, the disconnect finalizer writes
    once and removes the session, whatever the write returns. *)
Lemma finalize_with_service (env : Env) (call_id : string)
    (active_calls : Store) :
  db_service env = true →
  let call_data := call_data_of active_calls call_id in
  let extracted := default ∅ (extracted_data call_data) in
  let update_data :=
    mkUpdateData "completed" (now env)
      (default [] (full_transcript call_data))
      (dict_update extracted
         {[ "call_outcome" :=
              default (VStr "Call Completed") (extracted !! "call_outcome");
            "summary" := VStr (summary_of call_data) ]})
      (copy_result_fields extracted) in
  finalize_call_on_disconnect env call_id active_calls
  = (delete call_id active_calls,
     [EDbWrite (Some call_id) update_data
        (update_call_result (db_outcome env) (Some call_id) update_data)]).
Proof.
  intros Hdb. simpl. unfold finalize_call_on_disconnect. rewrite Hdb.
  case_decide as Hin; [done|].
  rewrite delete_id; [done|]. by apply eq_None_not_Some.
Qed.

(** With the database service at hand, the webhook writes once, whether
    or not the call is tracked, and removes the session. *)
Lemma webhook_with_service (env : Env) (recording_data : RecordingData)
    (call_id : string) (active_calls : Store) :
  rd_call_id recording_data = Some call_id →
  call_id ≠ "" →
  db_service env = true →
  let call_data := call_data_of active_calls call_id in
  let update_data :=
    mkUpdateData "completed" (now env)
      (webhook_transcript recording_data call_data)
      (webhook_structured call_data)
      (copy_result_fields (webhook_structured call_data)) in
  recording_webhook env recording_data active_calls
  = (delete call_id active_calls,
     [EDbWrite (Some call_id) update_data
        (update_call_result (db_outcome env) (Some call_id) update_data)],
     ReplySuccess (webhook_structured call_data)).
Proof.
  intros Hid Hne Hdb. simpl.
  unfold recording_webhook, webhook_structured, webhook_transcript.
  rewrite Hid. apply truthy_true_iff in Hne.
  assert (Ht : match default [] (rd_transcript recording_data),
                     full_transcript (call_data_of active_calls call_id) with
               | [], Some (e :: stored) => e :: stored
               | _, _ => default [] (rd_transcript recording_data)
               end
               = webhook_transcript recording_data
                   (call_data_of active_calls call_id)).
  { unfold webhook_transcript.
    destruct (default [] (rd_transcript recording_data)) as [|e t]; [|done].
    by destruct (full_transcript _) as [[|e stored]|]. }
  unfold webhook_transcript in Ht. rewrite Ht. clear Ht.
  destruct (decide (default ∅ (extracted_data
                                 (call_data_of active_calls call_id)) = ∅))
    as [Hempty|Hdata]; rewrite Hdb, Hne; simpl.
  - case_bool_decide as Hin; [done|].
    rewrite delete_id; [done|]. by apply eq_None_not_Some.
  - rewrite lookup_insert_eq.
    rewrite bool_decide_eq_true_2 by eauto.
    by rewrite delete_insert_eq.
Qed.

(** C5: when the write of the finalization fails ([update_call_result]
    returns [False] because the database raised or no row was touched),
    the disconnect finalizer still removes the session from
    [active_calls] and puts nothing back: the call is no longer tracked.
    The recording webhook does the same. *)
Theorem failed_write_still_removes_session (env : Env) (call_id : string)
    (active_calls : Store) :
  db_service env = true →
  db_outcome env = DbRaises ∨ db_outcome env = DbRowcount 0 →
  (∃ update_data,
     update_call_result (db_outcome env) (Some call_id) update_data = false
     ∧ finalize_call_on_disconnect env call_id active_calls
       = (delete call_id active_calls,
          [EDbWrite (Some call_id) update_data false]))
  ∧ delete call_id active_calls !! call_id = None
  ∧ ∀ recording_data,
      rd_call_id recording_data = Some call_id → call_id ≠ "" →
      ∃ update_data structured,
        recording_webhook env recording_data active_calls
        = (delete call_id active_calls,
           [EDbWrite (Some call_id) update_data false],
           ReplySuccess structured).
Proof.
  intros Hdb Hfail. split; [|split].
  - eexists. split; [by apply update_call_result_failed|].
    rewrite finalize_with_service by done.
    by rewrite update_call_result_failed.
  - apply lookup_delete_eq.
  - intros rd Hid Hne. eexists _, _.
    rewrite (webhook_with_service env rd call_id) by done.
    by rewrite update_call_result_failed.
Qed.

Lemma failed_write_still_removes_session_witness :
  ∃ update_data,
    update_call_result DbRaises (Some "call_1") update_data = false
    ∧ finalize_call_on_disconnect Sample.env_db_down "call_1" Sample.tracked
      = (delete "call_1" Sample.tracked,
         [EDbWrite (Some "call_1") update_data false]).
Proof.
  refine (proj1 (failed_write_still_removes_session
                   Sample.env_db_down "call_1" Sample.tracked _ _)).
  - reflexivity.
  - left. reflexivity.
Defined.

(** C1, as stated, fails: for a tracked call, the disconnect finalizer
    followed by the recording webhook, and the webhook followed by the
    finalizer, each make two persistence writes for the call, the second
    of them by the trigger that found the session gone. *)
Lemma both_triggers_write_twice :
  Sample.tracked !! "call_1" ≠ None
  ∧ (let '(_, t1, _, t2) :=
       disconnect_then_notification
         (Sample.env CompletionNoToolCalls) (Sample.env CompletionNoToolCalls)
         "call_1" Sample.recording Sample.tracked in
     length (writes_for "call_1" (t1 ++ t2)) = 2%nat
     ∧ length (writes_for "call_1" t2) = 1%nat)
  ∧ (let '(_, t1, _, t2) :=
       notification_then_disconnect
         (Sample.env CompletionNoToolCalls) (Sample.env CompletionNoToolCalls)
         "call_1" Sample.recording Sample.tracked in
     length (writes_for "call_1" (t1 ++ t2)) = 2%nat
     ∧ length (writes_for "call_1" t2) = 1%nat).
Proof.
  split; [vm_compute; discriminate|].
  split; vm_compute; split; reflexivity.
Qed.

Lemma call_data_of_deleted (call_id : string) (active_calls : Store) :
  call_data_of (delete call_id active_calls) call_id = no_call_data.
Proof. unfold call_data_of. by rewrite lookup_delete_eq. Qed.

Lemma delete_twice (call_id : string) (active_calls : Store) :
  delete call_id (delete call_id active_calls) = delete call_id active_calls.
Proof. apply delete_id, lookup_delete_eq. Qed.

(** C1 (amended): for a tracked call with a non-empty identifier and the
    database service at hand, the two triggers run one after the other,
    in either order, make two persistence writes for the call, one each.
    The first trigger removes the session.  The second finds it gone and
    leaves [active_calls] as it is, and writes all the same, a record
    built from the defaults: the webhook the minimal fallback, the
    disconnect finalizer an empty transcript and the default summary. *)
Theorem both_triggers_write_once_each (env1 env2 : Env) (call_id : string)
    (recording_data : RecordingData) (active_calls : Store) (s : Session) :
  active_calls !! call_id = Some s →
  call_id ≠ "" →
  rd_call_id recording_data = Some call_id →
  db_service env1 = true →
  db_service env2 = true →
  (∃ u1 ok1 u2 ok2,
     disconnect_then_notification env1 env2 call_id recording_data
       active_calls
     = (delete call_id active_calls, [EDbWrite (Some call_id) u1 ok1],
        delete call_id active_calls, [EDbWrite (Some call_id) u2 ok2])
     ∧ ud_full_transcript u1 = default [] (full_transcript s)
     ∧ structured_data u2 = minimal_fallback no_call_data)
  ∧ (∃ u1 ok1 u2 ok2,
       notification_then_disconnect env1 env2 call_id recording_data
         active_calls
       = (delete call_id active_calls, [EDbWrite (Some call_id) u1 ok1],
          delete call_id active_calls, [EDbWrite (Some call_id) u2 ok2])
       ∧ structured_data u1 = webhook_structured s
       ∧ ud_full_transcript u2 = []
       ∧ structured_data u2
         = {[ "call_outcome" := VStr "Call Completed";
              "summary" :=
                VStr "Call completed with driver about load N/A" ]}).
Proof.
  intros Hs Hne Hid Hdb1 Hdb2.
  assert (Hcd : call_data_of active_calls call_id = s)
    by (unfold call_data_of; by rewrite Hs).
  split.
  - unfold disconnect_then_notification.
    rewrite finalize_with_service by done.
    rewrite (webhook_with_service env2 recording_data call_id) by done.
    rewrite delete_twice, call_data_of_deleted, Hcd.
    eexists _, _, _, _. split; [reflexivity|]. by split.
  - unfold notification_then_disconnect.
    rewrite (webhook_with_service env1 recording_data call_id) by done.
    rewrite finalize_with_service by done.
    rewrite delete_twice, call_data_of_deleted, Hcd.
    eexists _, _, _, _. split; [reflexivity|]. by split.
Qed.

Lemma both_triggers_write_once_each_witness :
  ∃ u1 ok1 u2 ok2,
    disconnect_then_notification
      (Sample.env CompletionNoToolCalls) Sample.env_db_down
      "call_1" Sample.recording Sample.tracked
    = (delete "call_1" Sample.tracked, [EDbWrite (Some "call_1") u1 ok1],
       delete "call_1" Sample.tracked, [EDbWrite (Some "call_1") u2 ok2])
    ∧ ud_full_transcript u1 = Sample.transcript
    ∧ structured_data u2 = minimal_fallback no_call_data.
Proof.
  refine (proj1 (both_triggers_write_once_each
                   (Sample.env CompletionNoToolCalls) Sample.env_db_down
                   "call_1" Sample.recording Sample.tracked
                   (mkSession (Some "Sam") (Some "482") (Some "+15550100")
                      (Some {[ "current_location" :=
                                 VStr "I-10 near Phoenix";
                               "eta" := VStr "5pm" ]})
                      (Some Sample.transcript))
                   _ _ _ _ _)).
  - reflexivity.
  - discriminate.
  - reflexivity.
  - reflexivity.
  - reflexivity.
Defined.

(** C3, as stated, fails: the session holds a transcript of its own, the
    notification brings another one, and the record the webhook writes
    carries the one of the notification. *)
Lemma webhook_prefers_supplied_transcript :
  full_transcript (call_data_of Sample.tracked "call_1")
  = Some Sample.transcript
  ∧ Sample.transcript ≠ []
  ∧ ∃ update_data ok active_calls' reply,
      recording_webhook (Sample.env CompletionNoToolCalls) Sample.recording
        Sample.tracked
      = (active_calls', [EDbWrite (Some "call_1") update_data ok], reply)
      ∧ ud_full_transcript update_data
        = [ Sample.user_says "Around 5pm, over." ]
      ∧ ud_full_transcript update_data ≠ Sample.transcript.
Proof.
  split; [reflexivity|]. split; [discriminate|].
  eexists _, _, _, _. split.
  - by apply (webhook_with_service _ _ "call_1").
  - split; [reflexivity|discriminate].
Qed.

(** C3 (amended): the record the recording webhook writes carries the
    transcript supplied with the notification whenever that one is
    non-empty, and the session's stored transcript only when the supplied
    one is empty or missing; the record the disconnect finalizer writes
    always carries the session's stored transcript.  When the accumulated
    extracted data is empty, a minimal fallback summary stands in its
    place: for the webhook [call_outcome], [confidence] 0.3 and a summary
    sentence, for the disconnect finalizer [call_outcome] and a summary
    sentence. *)
Theorem persisted_transcript_and_fallback (env : Env) (call_id : string)
    (recording_data : RecordingData) (active_calls : Store) :
  rd_call_id recording_data = Some call_id →
  call_id ≠ "" →
  db_service env = true →
  let call_data := call_data_of active_calls call_id in
  (∃ update_data ok active_calls' reply,
     recording_webhook env recording_data active_calls
     = (active_calls', [EDbWrite (Some call_id) update_data ok], reply)
     ∧ ud_full_transcript update_data
       = match default [] (rd_transcript recording_data) with
         | [] => default [] (full_transcript call_data)
         | supplied => supplied
         end
     ∧ (default ∅ (extracted_data call_data) = ∅ →
        structured_data update_data
        = {[ "call_outcome" := VStr "Call Completed";
             "confidence" := VNum (Num 3 1);
             "summary" :=
               VStr (summary_of call_data
                     +:+ " - no data extracted during conversation") ]}))
  ∧ (∃ update_data ok active_calls',
       finalize_call_on_disconnect env call_id active_calls
       = (active_calls', [EDbWrite (Some call_id) update_data ok])
       ∧ ud_full_transcript update_data
         = default [] (full_transcript call_data)
       ∧ (default ∅ (extracted_data call_data) = ∅ →
          structured_data update_data
          = {[ "call_outcome" := VStr "Call Completed";
               "summary" := VStr (summary_of call_data) ]})).
Proof.
  intros Hid Hne Hdb call_data. split.
  - eexists _, _, _, _. split.
    + by apply (webhook_with_service _ _ call_id).
    + simpl. split; [reflexivity|].
      intros Hempty. unfold webhook_structured. fold call_data.
      by rewrite decide_True.
  - eexists _, _, _. split.
    + by apply finalize_with_service.
    + simpl. split; [reflexivity|].
      intros Hempty. fold call_data. rewrite Hempty.
      unfold dict_update. rewrite lookup_empty. simpl.
      apply (right_id_L ∅ (∪)).
Qed.

Lemma persisted_transcript_and_fallback_witness :
  ∃ update_data ok active_calls',
    finalize_call_on_disconnect (Sample.env CompletionNoToolCalls) "call_1"
      Sample.tracked
    = (active_calls', [EDbWrite (Some "call_1") update_data ok])
    ∧ ud_full_transcript update_data = Sample.transcript.
Proof.
  destruct (persisted_transcript_and_fallback
              (Sample.env CompletionNoToolCalls) "call_1" Sample.recording
              Sample.tracked)
    as [_ (update_data & ok & active_calls' & Hrun & Ht & _)].
  - reflexivity.
  - discriminate.
  - reflexivity.
  - exists update_data, ok, active_calls'. split; [exact Hrun|exact Ht].
Defined.

(** * Further properties of the code *)

(** ** Sessions do not interfere *)

Lemma finalize_other (env : Env) (call_id other : string)
    (active_calls : Store) :
  call_id ≠ other →
  (finalize_call_on_disconnect env call_id active_calls).1 !! other
  = active_calls !! other.
Proof.
  intros Hne. unfold finalize_call_on_disconnect.
  destruct (db_service env); simpl; [|done].
  case_decide; [|done]. by rewrite lookup_delete_ne.
Qed.

Lemma webhook_other (env : Env) (recording_data : RecordingData)
    (other : string) (active_calls : Store) :
  rd_call_id recording_data ≠ Some other →
  (recording_webhook env recording_data active_calls).1.1 !! other
  = active_calls !! other.
Proof.
  intros Hne. unfold recording_webhook.
  destruct (rd_call_id recording_data) as [c|] eqn:Hc.
  - assert (c ≠ other) by congruence.
    destruct (decide (_ = ∅)); destruct (db_service env); simpl;
      repeat case_match; simpl;
      rewrite ?lookup_delete_ne, ?lookup_insert_ne by done; done.
  - destruct (decide (_ = ∅)); destruct (db_service env); done.
Qed.

Lemma loop_iteration_other (env : Env) (h : Handler) (r : Received)
    (other : string) (active_calls : Store) :
  h_call_id h ≠ other →
  (loop_iteration env h r active_calls).1.1 !! other = active_calls !! other.
Proof.
  intros Hne. destruct r as [| | |m]; simpl; try done.
  repeat case_bool_decide; try done.
  destruct (decide (last_user_input (default [] (in_transcript m)) = "")).
  - by rewrite response_required_silent.
  - rewrite response_required_speaks by done. simpl.
    by rewrite lookup_insert_ne.
Qed.

Lemma system_step_other (env : Env) (a : Action) (c : Conn) (other : string)
    (active_calls : Store) :
  conn_call_id c ≠ Some other →
  action_call_id a ≠ Some other →
  (system_step env a c active_calls).1.2 !! other = active_calls !! other.
Proof.
  intros Hc Ha. destruct a as [r | rd | cid req]; simpl in Ha.
  - destruct c as [h|]; simpl; [|done].
    assert (Hh : h_call_id h ≠ other) by (simpl in Hc; congruence).
    pose proof (loop_iteration_other env h r other active_calls Hh) as Hl.
    destruct (loop_iteration env h r active_calls) as [[s t] []]; simpl in *;
      [done|].
    pose proof (finalize_other env (h_call_id h) other s Hh) as Hf.
    destruct (finalize_call_on_disconnect env (h_call_id h) s). simpl in *.
    congruence.
  - pose proof (webhook_other env rd other active_calls Ha) as Hw.
    destruct c; simpl;
      by destruct (recording_webhook env rd active_calls) as [[s t] w].
  - destruct c; simpl; unfold create_web_call;
      rewrite lookup_insert_ne; congruence.
Qed.

(** X1: whatever a connection receives and whatever webhooks and
    registrations come in, a session of another call, one that none of
    these is about, is still in [active_calls] exactly as it was. *)
Theorem other_sessions_untouched (schedule : list (Env * Action)) (c : Conn)
    (active_calls : Store) (other : string) :
  conn_call_id c ≠ Some other →
  Forall (λ step, action_call_id step.2 ≠ Some other) schedule →
  (run schedule c active_calls).1.2 !! other = active_calls !! other.
Proof.
  revert c active_calls.
  induction schedule as [|[env a] schedule IH]; intros c active_calls Hc Hall.
  - done.
  - apply Forall_cons in Hall as [Ha Hall]. simpl in *.
    pose proof (system_step_other env a c other active_calls Hc Ha) as Hstep.
    pose proof (system_step_conn env a c active_calls) as Hconn.
    destruct (system_step env a c active_calls) as [[c1 s1] t1].
    assert (Hc1 : conn_call_id c1 ≠ Some other).
    { simpl in Hconn. destruct Hconn as [-> | ->]; [done|discriminate]. }
    specialize (IH c1 s1 Hc1 Hall).
    destruct (run schedule c1 s1) as [[c2 s2] t2]. simpl in *. congruence.
Qed.

Lemma other_sessions_untouched_witness :
  (run Sample.late_registration (Open Sample.handler) Sample.two_calls).1.2
    !! "call_2"
  = Sample.two_calls !! "call_2".
Proof.
  apply (other_sessions_untouched Sample.late_registration
           (Open Sample.handler) Sample.two_calls "call_2").
  - discriminate.
  - repeat (constructor; [simpl; discriminate|]). constructor.
Defined.

(** ** A turn that is answered *)

(** A message that asks for a response, its response sent: one adapter
    call, one response, the session stored, the loop goes on. *)
Lemma system_step_turn (env : Env) (h : Handler) (m : Inbound)
    (active_calls : Store) :
  asks_for_response m →
  send_ok env = true →
  system_step env (Receive (RecvText m)) (Open h) active_calls
  = (Open h,
     <[h_call_id h := turn_session env h m active_calls]> active_calls,
     [EPolicy (turn_call h m active_calls); ESend (turn_response env m)]).
Proof.
  intros (Hping & Htype & Hu) Hsend. simpl.
  rewrite bool_decide_eq_false_2 by done.
  rewrite bool_decide_eq_true_2 by done.
  rewrite response_required_speaks by done. by rewrite Hsend.
Qed.

Lemma turn_session_extracted (env : Env) (h : Handler) (m : Inbound)
    (active_calls : Store) :
  extracted_data (turn_session env h m active_calls)
  = Some (merge_extracted
            (default ∅ (extracted_data
                          (call_data_of active_calls (h_call_id h))))
            (decide_reply (completion env)).2).
Proof.
  unfold turn_session, call_data_of. simpl.
  by destruct (active_calls !! h_call_id h).
Qed.

(** X2: two answered turns in a row.  The adapter call of the second
    turn is given, as accumulated data, exactly what the first turn left:
    the data the first call was given, merged with the fields the first
    call returned.  After the second turn the session holds the second
    transcript. *)
Theorem accumulated_data_reaches_next_turn (env1 env2 : Env) (h : Handler)
    (m1 m2 : Inbound) (active_calls : Store) :
  asks_for_response m1 → send_ok env1 = true →
  asks_for_response m2 → send_ok env2 = true →
  ∃ call1 call2 active_calls' s,
    run [(env1, Receive (RecvText m1)); (env2, Receive (RecvText m2))]
        (Open h) active_calls
    = (Open h, active_calls',
       [EPolicy call1; ESend (turn_response env1 m1);
        EPolicy call2; ESend (turn_response env2 m2)])
    ∧ pc_accumulated_data call2
      = merge_extracted (pc_accumulated_data call1)
                        (decide_reply (completion env1)).2
    ∧ active_calls' !! h_call_id h = Some s
    ∧ full_transcript s = Some (default [] (in_transcript m2)).
Proof.
  intros H1 Hs1 H2 Hs2. cbn [run].
  rewrite (system_step_turn env1 h m1) by done.
  rewrite (system_step_turn env2 h m2) by done. cbn [app].
  eexists _, _, _, _. split; [reflexivity|]. split; [|split].
  - simpl. unfold call_data_of at 1. rewrite lookup_insert_eq. simpl.
    unfold call_data_of. by destruct (active_calls !! h_call_id h).
  - apply lookup_insert_eq.
  - reflexivity.
Qed.

Lemma sample_turn_asks_for_response :
  asks_for_response (Sample.turn Sample.transcript).
Proof.
  split; [discriminate|]. split; [reflexivity|]. vm_compute. discriminate.
Qed.

Lemma accumulated_data_reaches_next_turn_witness :
  ∃ call1 call2 active_calls' s,
    run [(Sample.env_routine,
          Receive (RecvText (Sample.turn Sample.transcript)));
         (Sample.env_end_call,
          Receive (RecvText (Sample.turn Sample.transcript)))]
        (Open Sample.handler) ∅
    = (Open Sample.handler, active_calls',
       [EPolicy call1;
        ESend (turn_response Sample.env_routine
                 (Sample.turn Sample.transcript));
        EPolicy call2;
        ESend (turn_response Sample.env_end_call
                 (Sample.turn Sample.transcript))])
    ∧ pc_accumulated_data call2
      = merge_extracted (pc_accumulated_data call1)
          (decide_reply (completion Sample.env_routine)).2
    ∧ active_calls' !! "call_1" = Some s
    ∧ full_transcript s = Some Sample.transcript.
Proof.
  apply (accumulated_data_reaches_next_turn Sample.env_routine
           Sample.env_end_call Sample.handler
           (Sample.turn Sample.transcript) (Sample.turn Sample.transcript) ∅).
  - apply sample_turn_asks_for_response.
  - reflexivity.
  - apply sample_turn_asks_for_response.
  - reflexivity.
Defined.

Lemma should_end_call_of_completion (c : Completion) :
  default (VBool false) ((decide_reply c).2 !! "should_end_call")
  = VBool (bool_decide (selected_tool c = Some "end_call")).
Proof.
  destruct c as [err | | tool_name [err | args]]; simpl.
  - by rewrite error_fields_no_end_call.
  - done.
  - by rewrite error_fields_no_end_call.
  - rewrite tag_tool_should_end_call. simpl. f_equal.
    apply bool_decide_ext. split; congruence.
Qed.

(** X3: the [end_call] field of a turn's response is [True] exactly when
    the completion selected the [end_call] tool with arguments that parse;
    and even then the connection stays in its loop with its session still
    in [active_calls]: the loop is left only on a disconnect or an error,
    never because the call was told to end. *)
Theorem end_call_does_not_leave_loop (env : Env) (h : Handler) (m : Inbound)
    (active_calls : Store) :
  asks_for_response m →
  send_ok env = true →
  ∃ call reply active_calls',
    system_step env (Receive (RecvText m)) (Open h) active_calls
    = (Open h, active_calls',
       [EPolicy call;
        ESend (mkResponse (default 1%Z (in_response_id m)) reply true
                 (VBool (bool_decide
                           (selected_tool (completion env)
                            = Some "end_call"))))])
    ∧ is_Some (active_calls' !! h_call_id h).
Proof.
  intros Hm Hsend. rewrite system_step_turn by done.
  exists (turn_call h m active_calls), (decide_reply (completion env)).1.
  eexists. split; [|by rewrite lookup_insert_eq].
  unfold turn_response.
  by rewrite (should_end_call_of_completion (completion env)).
Qed.

Lemma end_call_does_not_leave_loop_witness :
  ∃ call reply active_calls',
    system_step Sample.env_end_call
      (Receive (RecvText (Sample.turn Sample.transcript)))
      (Open Sample.handler) Sample.tracked
    = (Open Sample.handler, active_calls',
       [EPolicy call; ESend (mkResponse 3 reply true (VBool true))])
    ∧ is_Some (active_calls' !! "call_1").
Proof.
  apply (end_call_does_not_leave_loop Sample.env_end_call Sample.handler
           (Sample.turn Sample.transcript) Sample.tracked).
  - apply sample_turn_asks_for_response.
  - reflexivity.
Defined.

(** X4: a receive timeout, a [ping_pong], an [update_only] and a message
    of any other kind than [response_required] are passed over: nothing is
    sent, the adapter is not called, [active_calls] is unchanged and the
    connection stays in its loop. *)
Theorem passed_over_messages_change_nothing (env : Env) (h : Handler)
    (r : Received) (active_calls : Store) :
  r = RecvTimeout
  ∨ (∃ m, r = RecvText m
          ∧ (response_type m = Some "ping_pong"
             ∨ interaction_type m ≠ Some "response_required")) →
  system_step env (Receive r) (Open h) active_calls
  = (Open h, active_calls, []).
Proof.
  intros [-> | (m & -> & [Hping | Htype])]; simpl.
  - done.
  - by rewrite bool_decide_eq_true_2.
  - case_bool_decide; [done|]. by rewrite bool_decide_eq_false_2.
Qed.

Lemma passed_over_messages_change_nothing_witness :
  system_step (Sample.env CompletionNoToolCalls)
    (Receive (RecvText (mkInbound (Some "update_only") (Some 4%Z) None
                          (Some Sample.transcript))))
    (Open Sample.handler) Sample.tracked
  = (Open Sample.handler, Sample.tracked, []).
Proof.
  apply passed_over_messages_change_nothing.
  right. eexists. split; [reflexivity|]. right. discriminate.
Defined.

(** ** Leaving the loop *)

Lemma webhook_trace_shape (env : Env) (recording_data : RecordingData)
    (active_calls : Store) :
  Forall (λ e, is_db_write e = true)
         (recording_webhook env recording_data active_calls).1.2.
Proof.
  unfold recording_webhook.
  destruct (decide (_ = ∅)); destruct (db_service env); simpl;
    by repeat constructor.
Qed.

(** A connection that has left its loop stays out of it, and from then on
    the only effects are persistence writes. *)
Lemma run_closed (schedule : list (Env * Action)) (active_calls : Store) :
  (run schedule Closed active_calls).1.1 = Closed
  ∧ Forall (λ e, is_db_write e = true) (run schedule Closed active_calls).2.
Proof.
  revert active_calls.
  induction schedule as [|[env a] schedule IH]; intros active_calls; simpl.
  - by split.
  - destruct a as [r | rd | cid req]; simpl.
    + specialize (IH active_calls).
      destruct (run schedule Closed active_calls) as [[c s] t]. by simpl in *.
    + pose proof (webhook_trace_shape env rd active_calls) as Hw.
      destruct (recording_webhook env rd active_calls) as [[s1 t1] w].
      specialize (IH s1). destruct (run schedule Closed s1) as [[c s] t].
      simpl in *. destruct IH as [-> IH]. split; [done|].
      by apply Forall_app.
    + specialize (IH (create_web_call cid req active_calls)).
      destruct (run schedule Closed _) as [[c s] t]. by simpl in *.
Qed.

(** X5: a disconnect or a receive error closes the connection for good.
    The finalizer runs at once, and whatever is scheduled afterwards, the
    connection sends nothing more and calls the adapter no more: all that
    is left in the trace are persistence writes. *)
Theorem disconnect_closes_for_good (env : Env) (h : Handler) (r : Received)
    (schedule : list (Env * Action)) (active_calls : Store) :
  r = RecvDisconnect ∨ r = RecvFailure →
  (run ((env, Receive r) :: schedule) (Open h) active_calls).1.1 = Closed
  ∧ Forall (λ e, is_db_write e = true)
           (run ((env, Receive r) :: schedule) (Open h) active_calls).2
  ∧ (db_service env = true →
     ∃ update_data ok rest,
       (run ((env, Receive r) :: schedule) (Open h) active_calls).2
       = EDbWrite (Some (h_call_id h)) update_data ok :: rest).
Proof.
  intros Hr.
  assert (Hstep : system_step env (Receive r) (Open h) active_calls
                  = (Closed,
                     (finalize_call_on_disconnect env (h_call_id h)
                        active_calls).1,
                     (finalize_call_on_disconnect env (h_call_id h)
                        active_calls).2)).
  { destruct Hr as [-> | ->]; simpl;
      by destruct (finalize_call_on_disconnect env (h_call_id h)
                     active_calls). }
  cbn [run]. rewrite Hstep.
  pose proof (finalize_trace_shape env (h_call_id h) active_calls) as Hf.
  pose proof (run_closed schedule
                (finalize_call_on_disconnect env (h_call_id h)
                   active_calls).1) as [Hc Ht].
  destruct (run schedule Closed _) as [[c s] t]. simpl in *.
  split; [done|]. split; [by apply Forall_app|].
  intros Hdb. rewrite finalize_with_service by done. simpl. eauto.
Qed.

Lemma disconnect_closes_for_good_witness :
  (run ((Sample.env CompletionNoToolCalls, Receive RecvDisconnect)
        :: Sample.late_registration)
       (Open Sample.handler) Sample.tracked).1.1
  = Closed.
Proof.
  apply (disconnect_closes_for_good (Sample.env CompletionNoToolCalls)
           Sample.handler RecvDisconnect Sample.late_registration
           Sample.tracked).
  by left.
Defined.

(** X6: when [get_database_service()] raises, neither finalizer writes
    and neither removes the session: a tracked call stays tracked.  The
    webhook answers with an error, yet it has already put the summary
    into the accumulated data of the session when there was any. *)
Theorem without_database_service_session_stays (env : Env)
    (call_id : string) (recording_data : RecordingData)
    (active_calls : Store) (s : Session) :
  db_service env = false →
  active_calls !! call_id = Some s →
  rd_call_id recording_data = Some call_id →
  finalize_call_on_disconnect env call_id active_calls = (active_calls, [])
  ∧ ∃ active_calls' s',
      recording_webhook env recording_data active_calls
      = (active_calls', [], ReplyError)
      ∧ active_calls' !! call_id = Some s'
      ∧ (default ∅ (extracted_data s) = ∅ → s' = s)
      ∧ (default ∅ (extracted_data s) ≠ ∅ →
         ∃ d, extracted_data s' = Some d
              ∧ d !! "summary" = Some (VStr (summary_of s))).
Proof.
  intros Hdb Hs Hid. split.
  - unfold finalize_call_on_disconnect. by rewrite Hdb.
  - unfold recording_webhook. rewrite Hid, Hdb.
    unfold call_data_of. rewrite Hs. simpl.
    destruct (decide (default ∅ (extracted_data s) = ∅)) as [He|He].
    + eexists _, _. split; [reflexivity|]. split; [exact Hs|].
      split; [done|]. intros Hne. by destruct Hne.
    + eexists _, _. split; [reflexivity|].
      split; [apply lookup_insert_eq|]. split; [done|].
      intros _. eexists. split; [reflexivity|]. apply lookup_insert_eq.
Qed.

Lemma without_database_service_session_stays_witness :
  finalize_call_on_disconnect Sample.env_no_service "call_1" Sample.tracked
  = (Sample.tracked, []).
Proof.
  refine (proj1 (without_database_service_session_stays
                   Sample.env_no_service "call_1" Sample.recording
                   Sample.tracked Sample.tracked_session _ _ _)).
  - reflexivity.
  - reflexivity.
  - reflexivity.
Defined.

(** ** What a turn leaves in the accumulated data *)

Lemma is_emergency_of_completion (c : Completion) :
  (decide_reply c).2 !! "is_emergency"
  = Some (VBool (bool_decide
                   (selected_tool c = Some "handle_emergency_protocol"))).
Proof.
  destruct c as [err | | tool_name [err | args]]; simpl; try done.
  - rewrite tag_tool_is_emergency. do 2 f_equal.
    apply bool_decide_ext. split; congruence.
Qed.

(** X7: after every answered turn the accumulated [is_emergency] is that
    of this very turn: [True] when the emergency tool was selected with
    arguments that parse, [False] otherwise.  So a routine turn, and an
    adapter failure as well, resets the flag an earlier emergency turn had
    raised. *)
Theorem latest_turn_sets_is_emergency (env : Env) (h : Handler) (m : Inbound)
    (active_calls : Store) :
  asks_for_response m →
  send_ok env = true →
  ∃ s d,
    (system_step env (Receive (RecvText m)) (Open h) active_calls).1.2
      !! h_call_id h = Some s
    ∧ extracted_data s = Some d
    ∧ d !! "is_emergency"
      = Some (VBool (bool_decide
                       (selected_tool (completion env)
                        = Some "handle_emergency_protocol"))).
Proof.
  intros Hm Hsend. rewrite system_step_turn by done. simpl.
  eexists _, _. split; [apply lookup_insert_eq|].
  split; [apply turn_session_extracted|].
  rewrite merge_extracted_lookup, is_emergency_of_completion. done.
Qed.

Lemma latest_turn_sets_is_emergency_witness :
  ∃ s d,
    (system_step Sample.env_routine
       (Receive (RecvText (Sample.turn Sample.transcript)))
       (Open Sample.handler)
       {[ "call_1" :=
            mkSession (Some "Sam") (Some "482") None
                      (Some {[ "is_emergency" := VBool true ]}) None ]}).1.2
      !! "call_1" = Some s
    ∧ extracted_data s = Some d
    ∧ d !! "is_emergency" = Some (VBool false).
Proof.
  apply (latest_turn_sets_is_emergency Sample.env_routine Sample.handler
           (Sample.turn Sample.transcript)).
  - apply sample_turn_asks_for_response.
  - reflexivity.
Defined.

(** ** What the adapter keeps of the arguments *)

(** X8: when the tool arguments parse, the reply is their [response_text]
    (a stock sentence when they have none), which is taken out of the
    fields; the fields carry the tool name under [tool_used]; and every
    other argument is handed on unchanged. *)
Theorem tool_arguments_are_handed_on (call : PolicyCall) (tool_name : string)
    (args : Fields) :
  let result :=
    (generate_llm_response_with_extraction call
       (CompletionToolCall tool_name (ArgsObject args))).2 in
  result.1 = default (VStr "I understand. Can you provide more details?")
                     (args !! "response_text")
  ∧ result.2 !! "response_text" = None
  ∧ result.2 !! "tool_used" = Some (VStr tool_name)
  ∧ ∀ k, k ≠ "response_text" → k ≠ "tool_used" → k ≠ "is_emergency" →
         k ≠ "should_end_call" →
         result.2 !! k = args !! k.
Proof.
  simpl. split; [done|]. unfold tag_tool. split; [|split].
  - repeat rewrite lookup_insert_ne by done. apply lookup_delete_eq.
  - repeat rewrite lookup_insert_ne by done. apply lookup_insert_eq.
  - intros k H1 H2 H3 H4. repeat rewrite lookup_insert_ne by done.
    by rewrite lookup_delete_ne.
Qed.

(** ** What is persisted *)

Lemma copy_fold_lookup (d : Fields) (fields : list string) (acc : Fields)
    (k : string) :
  foldl (λ update_data field,
           match d !! field with
           | Some v => <[field := v]> update_data
           | None => update_data
           end) acc fields !! k
  = if bool_decide (k ∈ fields)
    then match d !! k with Some v => Some v | None => acc !! k end
    else acc !! k.
Proof.
  revert acc. induction fields as [|f fields IH]; intros acc; simpl.
  - done.
  - rewrite IH. destruct (decide (k = f)) as [->|Hne].
    + rewrite (bool_decide_eq_true_2 (f ∈ f :: fields)) by left.
      destruct (d !! f) as [v|] eqn:Hd.
      * rewrite lookup_insert_eq. by destruct (bool_decide (f ∈ fields)).
      * by destruct (bool_decide (f ∈ fields)).
    + assert (Hacc : match d !! f with
                     | Some v => <[f := v]> acc
                     | None => acc
                     end !! k = acc !! k).
      { destruct (d !! f); [by rewrite lookup_insert_ne|done]. }
      rewrite Hacc. apply (f_equal (λ b : bool, if b then _ else _)).
      apply bool_decide_ext. rewrite elem_of_cons. intuition congruence.
Qed.

(** The copied columns are the seven result fields, as far as present. *)
Lemma copy_result_fields_lookup (d : Fields) (k : string) :
  copy_result_fields d !! k
  = if bool_decide (k ∈ result_fields) then d !! k else None.
Proof.
  unfold copy_result_fields. rewrite copy_fold_lookup, lookup_empty.
  case_bool_decide; [|done]. by destruct (d !! k).
Qed.

(** X9: what the disconnect finalizer writes for a call.  Its structured
    data hold every accumulated field unchanged, except that [summary] is
    always the summary sentence and [call_outcome] is "Call Completed"
    when none was accumulated.  Its columns are the accumulated values of
    the seven result fields and nothing else. *)
Theorem disconnect_persists_accumulated_fields (env : Env) (call_id : string)
    (active_calls : Store) :
  db_service env = true →
  let call_data := call_data_of active_calls call_id in
  let accumulated := default ∅ (extracted_data call_data) in
  ∃ update_data ok active_calls',
    finalize_call_on_disconnect env call_id active_calls
    = (active_calls', [EDbWrite (Some call_id) update_data ok])
    ∧ (∀ k, k ≠ "summary" → k ≠ "call_outcome" →
            structured_data update_data !! k = accumulated !! k)
    ∧ structured_data update_data !! "summary"
      = Some (VStr (summary_of call_data))
    ∧ structured_data update_data !! "call_outcome"
      = Some (default (VStr "Call Completed")
                      (accumulated !! "call_outcome"))
    ∧ ∀ k, columns update_data !! k
           = if bool_decide (k ∈ result_fields) then accumulated !! k
             else None.
Proof.
  intros Hdb call_data accumulated.
  eexists _, _, _. split; [by apply finalize_with_service|]. simpl.
  fold call_data. fold accumulated. unfold dict_update.
  split; [|split; [|split]].
  - intros k Hs Ho. rewrite lookup_union.
    rewrite lookup_insert_ne, lookup_singleton_ne by done.
    by destruct (accumulated !! k).
  - rewrite lookup_union, lookup_insert_ne by done.
    rewrite lookup_singleton_eq. by destruct (accumulated !! "summary").
  - rewrite lookup_union, lookup_insert_eq.
    by destruct (accumulated !! "call_outcome").
  - intros k. apply copy_result_fields_lookup.
Qed.

Lemma disconnect_persists_accumulated_fields_witness :
  ∃ update_data ok active_calls',
    finalize_call_on_disconnect (Sample.env CompletionNoToolCalls) "call_1"
      Sample.tracked
    = (active_calls', [EDbWrite (Some "call_1") update_data ok])
    ∧ structured_data update_data !! "eta" = Some (VStr "5pm")
    ∧ columns update_data !! "eta" = Some (VStr "5pm").
Proof.
  destruct (disconnect_persists_accumulated_fields
              (Sample.env CompletionNoToolCalls) "call_1" Sample.tracked)
    as (update_data & ok & active_calls' & Hrun & Hs & _ & _ & Hc).
  - reflexivity.
  - exists update_data, ok, active_calls'. split; [exact Hrun|]. split.
    + rewrite (Hs "eta") by discriminate. reflexivity.
    + rewrite (Hc "eta"). reflexivity.
Defined.

(** X10: what the recording webhook writes for a tracked call with
    accumulated data.  Its structured data hold every accumulated field
    unchanged except [summary], which is the summary sentence; its columns
    are the accumulated values of the seven result fields; and it answers
    with these structured data, whatever the write returned. *)
Theorem webhook_persists_accumulated_fields (env : Env) (call_id : string)
    (recording_data : RecordingData) (active_calls : Store) :
  rd_call_id recording_data = Some call_id →
  call_id ≠ "" →
  db_service env = true →
  let call_data := call_data_of active_calls call_id in
  let accumulated := default ∅ (extracted_data call_data) in
  accumulated ≠ ∅ →
  ∃ update_data active_calls',
    recording_webhook env recording_data active_calls
    = (active_calls',
       [EDbWrite (Some call_id) update_data
          (update_call_result (db_outcome env) (Some call_id) update_data)],
       ReplySuccess (structured_data update_data))
    ∧ (∀ k, k ≠ "summary" →
            structured_data update_data !! k = accumulated !! k)
    ∧ structured_data update_data !! "summary"
      = Some (VStr (summary_of call_data))
    ∧ ∀ k, columns update_data !! k
           = if bool_decide (k ∈ result_fields) then accumulated !! k
             else None.
Proof.
  intros Hid Hne Hdb call_data accumulated Hacc.
  exists (mkUpdateData "completed" (now env)
            (webhook_transcript recording_data call_data)
            (webhook_structured call_data)
            (copy_result_fields (webhook_structured call_data))).
  eexists. split; [by apply (webhook_with_service _ _ call_id)|].
  simpl. unfold webhook_structured. fold call_data. fold accumulated.
  rewrite decide_False by done. split; [|split].
  - intros k Hk. by rewrite lookup_insert_ne.
  - apply lookup_insert_eq.
  - intros k. rewrite copy_result_fields_lookup.
    case_bool_decide as Hk; [|done]. rewrite lookup_insert_ne; [done|].
    intros <-. revert Hk. unfold result_fields.
    rewrite !elem_of_cons, elem_of_nil. intuition discriminate.
Qed.

Lemma webhook_persists_accumulated_fields_witness :
  ∃ update_data active_calls',
    recording_webhook Sample.env_db_down Sample.recording Sample.tracked
    = (active_calls',
       [EDbWrite (Some "call_1") update_data
          (update_call_result DbRaises (Some "call_1") update_data)],
       ReplySuccess (structured_data update_data))
    ∧ structured_data update_data !! "eta" = Some (VStr "5pm").
Proof.
  destruct (webhook_persists_accumulated_fields Sample.env_db_down "call_1"
              Sample.recording Sample.tracked)
    as (update_data & active_calls' & Hrun & Hs & _ & _).
  - reflexivity.
  - discriminate.
  - reflexivity.
  - vm_compute. discriminate.
  - exists update_data, active_calls'. split; [exact Hrun|].
    rewrite (Hs "eta") by discriminate. reflexivity.
Defined.

(** ** More on the merge *)

Lemma merge_extracted_is_Some (accumulated incoming : Fields) (k : string) :
  is_Some (accumulated !! k) →
  is_Some (merge_extracted accumulated incoming !! k).
Proof.
  intros H. rewrite merge_extracted_lookup.
  destruct (incoming !! k) as [v|]; [|done]. by destruct (kept v).
Qed.

Lemma merge_all_snoc (accumulated : Fields) (turns : list Fields)
    (incoming : Fields) :
  merge_all accumulated (turns ++ [incoming])
  = merge_extracted (merge_all accumulated turns) incoming.
Proof. unfold merge_all. by rewrite foldl_app. Qed.

(** X11: the merge seen as an operation on the accumulated data.  No key
    ever disappears, through any sequence of merges; a non-empty value of
    the latest extraction always wins; merging the same extraction a
    second time changes nothing; and merging an extraction without any
    field changes nothing. *)
Theorem merge_keeps_keys_and_latest_wins (accumulated incoming : Fields)
    (turns : list Fields) :
  dom accumulated ⊆ dom (merge_all accumulated turns)
  ∧ (∀ k v, incoming !! k = Some v → kept v = true →
            merge_all accumulated (turns ++ [incoming]) !! k = Some v)
  ∧ merge_extracted (merge_extracted accumulated incoming) incoming
    = merge_extracted accumulated incoming
  ∧ merge_extracted accumulated ∅ = accumulated.
Proof.
  split; [|split; [|split]].
  - revert accumulated.
    induction turns as [|inc turns IH]; intros acc; [done|]. simpl.
    etrans; [|apply IH]. intros k. rewrite !elem_of_dom.
    apply merge_extracted_is_Some.
  - intros k v Hk Hv.
    by rewrite merge_all_snoc, merge_extracted_lookup, Hk, Hv.
  - apply map_eq. intros k. rewrite !merge_extracted_lookup.
    destruct (incoming !! k) as [v|]; [|done]. by destruct (kept v).
  - apply map_eq. intros k. by rewrite merge_extracted_lookup, lookup_empty.
Qed.

(** ** More on the context *)

Lemma in_history_nonempty (u : string) (e : Entry) :
  in_history u e = true → msg_content (history_message e) ≠ "".
Proof.
  unfold in_history, history_message, stripped_content. simpl.
  destruct (content e) as [c|]; [|done]. simpl.
  intros H. apply andb_true_iff in H as [H _].
  apply andb_true_iff in H as [_ H].
  destruct (PyStr.strip c); [discriminate|done].
Qed.

(** X12: every message of the context handed to the adapter comes from an
    entry of the transcript before its last one; its content is that
    entry's content stripped, and is not empty; its role is [assistant]
    for an entry of role [agent] and [user] for every other entry. *)
Theorem context_messages_are_normalised (transcript : Transcript)
    (user_input : string) (msg : Message) :
  msg ∈ conversation_history transcript user_input →
  ∃ e, e ∈ all_but_last transcript
       ∧ msg_content msg = PyStr.strip (default "" (content e))
       ∧ msg_content msg ≠ ""
       ∧ msg_role msg
         = if bool_decide (role e = Some "agent") then "assistant" else "user".
Proof.
  intros Hmsg. unfold conversation_history, last_n in Hmsg.
  apply subseteq_drop in Hmsg.
  apply list_elem_of_fmap in Hmsg as (e & -> & He).
  apply list_elem_of_In, filter_In in He as [He Hin].
  exists e. split; [by apply list_elem_of_In|].
  split; [done|]. split; [by apply (in_history_nonempty user_input)|done].
Qed.

Lemma context_messages_are_normalised_witness :
  ∃ e, e ∈ all_but_last Sample.transcript
       ∧ "I'm on I-10 near Phoenix" = PyStr.strip (default "" (content e))
       ∧ "I'm on I-10 near Phoenix" ≠ ""
       ∧ "user"
         = if bool_decide (role e = Some "agent") then "assistant" else "user".
Proof.
  apply (context_messages_are_normalised Sample.transcript "Around 5pm"
           (mkMessage "user" "I'm on I-10 near Phoenix")).
  vm_compute. right. left.
Defined.

(** ** Registration, then the connection *)

(** X13: a call registered by [create_web_call] and then connected is
    greeted with the registered driver name and load number, "Driver" and
    "Load" standing in for a missing one; and every adapter call of the
    connection is made with these same two, whatever happens later. *)
Theorem registered_call_is_greeted_by_name (env : Env) (call_id : string)
    (request : CallMetadataRequest) (active_calls : Store)
    (schedule : list (Env * Action)) :
  let driver := default "Driver" (req_driver_name request) in
  let load := default "Load" (req_load_number request) in
  let opened :=
    llm_websocket_open env call_id
      (create_web_call call_id request active_calls) in
  (∃ rest,
     opened.2
     = ESend (mkResponse 0 (VStr (generate_first_message_simple driver load))
                true (VBool false)) :: rest)
  ∧ ∀ call, EPolicy call ∈ (run schedule opened.1.1 opened.1.2).2 →
            pc_driver_name call = driver ∧ pc_load_number call = load.
Proof.
  intros driver load opened.
  assert (Haccept : accept call_id (create_web_call call_id request active_calls)
                    = mkHandler call_id driver load).
  { unfold accept, call_data_of, create_web_call.
    by rewrite lookup_insert_eq. }
  split.
  - destruct (llm_websocket_open_trace env call_id
                (create_web_call call_id request active_calls))
      as (rest & Hdone & _).
    exists rest. subst opened. by rewrite Hdone, Haccept.
  - intros call Hcall.
    apply run_policy_call in Hcall as (h & Hh & -> & ->).
    destruct (llm_websocket_open_conn env call_id
                (create_web_call call_id request active_calls)) as [Ho|Ho];
      subst opened; rewrite Ho in Hh; [|discriminate].
    injection Hh as <-. by rewrite Haccept.
Qed.

(** ** The published agent *)

Lemma insert_desc_elem_of (x y : Agent * Z) (l : list (Agent * Z)) :
  y ∈ insert_desc x l ↔ y = x ∨ y ∈ l.
Proof.
  induction l as [|z l IH]; simpl.
  - rewrite list_elem_of_singleton, elem_of_nil. tauto.
  - destruct (x.2 <? z.2)%Z.
    + rewrite !elem_of_cons, IH. tauto.
    + rewrite !elem_of_cons. tauto.
Qed.

Lemma sort_desc_elem_of (y : Agent * Z) (l : list (Agent * Z)) :
  y ∈ sort_desc l ↔ y ∈ l.
Proof.
  induction l as [|x l IH]; simpl; [done|].
  rewrite insert_desc_elem_of, elem_of_cons, IH. tauto.
Qed.

(** The head of the sorted list has the highest version. *)
Lemma sort_desc_head (l : list (Agent * Z)) (y : Agent * Z)
    (rest : list (Agent * Z)) :
  sort_desc l = y :: rest → ∀ x, x ∈ l → (x.2 ≤ y.2)%Z.
Proof.
  revert y rest. induction l as [|a l IH]; intros y rest Hs x Hx.
  - by apply elem_of_nil in Hx.
  - simpl in Hs. destruct (sort_desc l) as [|z zs] eqn:Hl.
    + assert (l = []) as ->.
      { destruct l as [|b l]; [done|].
        assert (b ∈ sort_desc (b :: l)) by (apply sort_desc_elem_of; left).
        rewrite Hl in H. by apply elem_of_nil in H. }
      simpl in Hs. injection Hs as <- _.
      apply list_elem_of_singleton in Hx as ->. lia.
    + simpl in Hs. destruct (a.2 <? z.2)%Z eqn:Haz.
      * injection Hs as <- _. apply Z.ltb_lt in Haz.
        apply elem_of_cons in Hx as [->|Hx]; [lia|].
        by apply (IH z zs).
      * injection Hs as <- _. apply Z.ltb_ge in Haz.
        apply elem_of_cons in Hx as [->|Hx]; [lia|].
        specialize (IH z zs eq_refl x Hx). lia.
Qed.

Lemma published_elem_of (retell_agent_id : option string)
    (agents : list Agent) (p : Agent * Z) :
  p ∈ (λ agent, (agent, version_of agent))
        <$> List.filter (is_candidate retell_agent_id) agents
  ↔ p.1 ∈ agents ∧ is_candidate retell_agent_id p.1 = true
    ∧ p.2 = version_of p.1.
Proof.
  rewrite list_elem_of_fmap. split.
  - intros (a & -> & Ha). apply list_elem_of_In, filter_In in Ha as [Ha Hc].
    by rewrite list_elem_of_In.
  - intros (Ha & Hc & Hv). exists p.1. split.
    + destruct p. simpl in *. by subst.
    + apply list_elem_of_In, filter_In. by rewrite <- list_elem_of_In.
Qed.

(** X14: [get_published_agent_info] always answers with the configured
    agent identifier.  It answers with a version exactly when the listing
    has a published custom-LLM agent of that identifier, and the version
    is then the highest one among these agents (an agent without version
    counting as version 0); it answers without a version when the listing
    raises or has no such agent. *)
Theorem published_agent_has_highest_version (retell_agent_id : option string)
    (listing : AgentListing) :
  let result := get_published_agent_info retell_agent_id listing in
  result.1 = retell_agent_id
  ∧ (∀ v, result.2 = Some v ↔
          ∃ agents, listing = Listing agents
            ∧ (∃ a, a ∈ agents ∧ is_candidate retell_agent_id a = true
                    ∧ version_of a = v)
            ∧ ∀ a, a ∈ agents → is_candidate retell_agent_id a = true →
                   (version_of a ≤ v)%Z)
  ∧ (result.2 = None ↔
     listing = ListingRaises
     ∨ ∃ agents, listing = Listing agents
         ∧ ∀ a, a ∈ agents → is_candidate retell_agent_id a = false).
Proof.
  destruct listing as [|agents]; simpl.
  { split; [done|]. split; [|by split; [left|]].
    intros v. split; [done|]. by intros (agents & ? & _). }
  set (published := (λ agent, (agent, version_of agent))
                      <$> List.filter (is_candidate retell_agent_id) agents).
  destruct published as [|p published'] eqn:Hp.
  - assert (Hnone : ∀ a, a ∈ agents → is_candidate retell_agent_id a = false).
    { intros a Ha. destruct (is_candidate retell_agent_id a) eqn:Hc; [|done].
      assert (H : (a, version_of a) ∈ published)
        by (by apply published_elem_of).
      rewrite Hp in H. by apply elem_of_nil in H. }
    simpl. split; [done|]. split.
    + intros v. split; [done|].
      intros (agents' & [= <-] & (a & Ha & Hc & _) & _).
      rewrite (Hnone a Ha) in Hc. discriminate.
    + split; [|done]. intros _. right. by exists agents.
  - destruct (sort_desc (p :: published')) as [|[agent version] rest] eqn:Hs.
    { assert (H : p ∈ sort_desc (p :: published'))
        by (apply sort_desc_elem_of; left).
      rewrite Hs in H. by apply elem_of_nil in H. }
    assert (Hin : (agent, version) ∈ published).
    { rewrite Hp. apply sort_desc_elem_of. rewrite Hs. left. }
    apply published_elem_of in Hin as (Ha & Hc & Hv). simpl in Ha, Hc, Hv.
    assert (Hmax : ∀ a, a ∈ agents → is_candidate retell_agent_id a = true →
                        (version_of a ≤ version)%Z).
    { intros a Ha' Hc'.
      apply (sort_desc_head _ _ _ Hs (a, version_of a)).
      rewrite <- Hp. by apply published_elem_of. }
    simpl. split; [|split].
    + unfold is_candidate in Hc. apply andb_true_iff in Hc as [Hc _].
      apply andb_true_iff in Hc as [Hc _]. by apply bool_decide_eq_true in Hc.
    + intros v. split.
      * intros [= <-]. exists agents. split; [done|]. split; [|done].
        by exists agent.
      * intros (agents' & [= <-] & (a & Ha' & Hc' & Hv') & Hall).
        f_equal. specialize (Hmax a Ha' Hc'). specialize (Hall agent Ha Hc).
        lia.
    + split; [done|]. intros [H | (agents' & [= <-] & Hnone)]; [done|].
      rewrite (Hnone agent Ha) in Hc. discriminate.
Qed.

(** On the sample listing: of the agents of the configured identifier
    that are published and run a custom LLM, the highest version is 5. *)
Example sample_published_agent :
  get_published_agent_info (Some "agent_7") (Listing Sample.agents)
  = (Some "agent_7", Some 5%Z).
Proof. vm_compute. reflexivity. Qed.

(** ** The conversation read back *)

(** X15: [get_call_conversation] gives one message for each entry of the
    stored transcript, numbered by its position from 0, with the entry's
    role and content, "user" and the empty string standing in for a
    missing one; it gives nothing when the query raises, when there is no
    row, and when the stored transcript is [NULL] or empty. *)
Theorem conversation_is_numbered_by_position (row : TranscriptRow) :
  let stored :=
    match row with Row (Some transcript) => transcript | _ => [] end in
  length (get_call_conversation row) = length stored
  ∧ ∀ i, get_call_conversation row !! i
         = (λ entry, mkConversationMessage (default "user" (role entry))
                       (default "" (content entry)) i) <$> stored !! i.
Proof.
  destruct row as [| |[[|entry transcript]|]]; try by split.
  change (get_call_conversation (Row (Some (entry :: transcript))))
    with (conversation_of (entry :: transcript)).
  cbv zeta. unfold conversation_of. split.
  - apply length_imap.
  - intros i. apply list_lookup_imap.
Qed.

(** ** The record of a new call *)

(** X16: the row inserted for a call registered by [create_web_call]
    carries the call identifier and the same driver name, phone number and
    load number as the session put into [active_calls], with the status
    "in_progress".  Its metadata column is always the empty object:
    [create_call_result] reads the key [metadata], which the dictionary
    built by [create_call_database_record] does not have. *)
Theorem new_call_row_matches_session (call_id : string)
    (request : CallMetadataRequest) (active_config : option string)
    (active_calls : Store) :
  ∃ session,
    create_web_call call_id request active_calls !! call_id = Some session
    ∧ let row :=
        create_call_result active_config
          (create_call_database_record call_id session) in
      ci_call_id row = Some (CText call_id)
      ∧ ci_driver_name row = CText <$> driver_name session
      ∧ ci_phone_number row = CText <$> phone_number session
      ∧ ci_load_number row = CText <$> load_number session
      ∧ ci_agent_configuration_id row = active_config
      ∧ ci_call_status row = "in_progress"
      ∧ ci_call_metadata row = None.
Proof.
  eexists. split; [apply lookup_insert_eq|].
  unfold create_call_result, create_call_database_record. simpl.
  repeat split;
    repeat (rewrite lookup_insert_ne by done);
    rewrite ?lookup_insert_eq, ?lookup_singleton_ne by done; done.
Qed.

(** ** The update statement *)

Lemma add_clause_counts (acc : list SetClause * list SqlParam)
    (item : string * UpdateValue) :
  placeholders (add_clause acc item).1 + length acc.2
  = placeholders acc.1 + length (add_clause acc item).2
  ∧ length (add_clause acc item).1
    = length acc.1 + (if is_column item.1 then 1 else 0).
Proof.
  destruct acc as [clauses values], item as [field v].
  unfold add_clause, is_column, placeholders. simpl.
  repeat case_bool_decide; simpl;
    rewrite ?List.filter_app, ?length_app; simpl; lia.
Qed.

Lemma build_counts (update_data : list (string * UpdateValue))
    (acc : list SetClause * list SqlParam) :
  placeholders (foldl add_clause acc update_data).1 + length acc.2
  = placeholders acc.1 + length (foldl add_clause acc update_data).2
  ∧ length (foldl add_clause acc update_data).1
    = length acc.1
      + length (List.filter (λ item, is_column item.1) update_data).
Proof.
  revert acc. induction update_data as [|item items IH]; intros acc.
  - simpl. lia.
  - cbn [foldl List.filter].
    destruct (IH (add_clause acc item)) as [IH1 IH2].
    destruct (add_clause_counts acc item) as [H1 H2].
    split; [lia|]. rewrite IH2, H2.
    destruct (is_column item.1); simpl; lia.
Qed.

Lemma add_clause_skips (acc : list SetClause * list SqlParam)
    (item : string * UpdateValue) :
  is_column item.1 = false → add_clause acc item = acc.
Proof.
  destruct acc as [clauses values], item as [field v].
  unfold is_column, add_clause. simpl. intros H.
  apply orb_false_iff in H as [H H3]. apply orb_false_iff in H as [H1 H2].
  by rewrite H1, H2, H3.
Qed.

Lemma add_clause_known (acc : list SetClause * list SqlParam)
    (item : string * UpdateValue) :
  Forall (λ c, c ≠ SetParam "call_ended_at") acc.1 →
  Forall (λ c, c ≠ SetParam "call_ended_at") (add_clause acc item).1.
Proof.
  destruct acc as [clauses values], item as [field v].
  unfold add_clause. simpl. intros H.
  repeat case_bool_decide; simpl; try done;
    apply Forall_app; (split; [done|]); constructor; try done;
    intros [= ->].
  - revert H0. unfold scalar_columns.
    rewrite !elem_of_cons, elem_of_nil. intuition discriminate.
  - revert H1. unfold json_columns.
    rewrite !elem_of_cons, elem_of_nil. intuition discriminate.
Qed.

Lemma build_known (update_data : list (string * UpdateValue))
    (acc : list SetClause * list SqlParam) :
  Forall (λ c, c ≠ SetParam "call_ended_at") acc.1 →
  Forall (λ c, c ≠ SetParam "call_ended_at")
         (foldl add_clause acc update_data).1.
Proof.
  revert acc. induction update_data as [|item items IH]; intros acc H.
  - done.
  - cbn [foldl]. by apply IH, add_clause_known.
Qed.

(** X17: in every statement [update_call_result] executes, the parameters
    are as many as the [%s] of the statement, one for each [SET] clause
    with a parameter and a last one, the call identifier, for the [WHERE];
    the time of [call_ended_at] is never a parameter.  The [SET] part
    always ends with [updated_at = NOW()]. *)
Theorem update_parameters_match_placeholders (call_id : option string)
    (update_data : list (string * UpdateValue))
    (clauses : list SetClause) (values : list SqlParam) :
  update_statement call_id update_data = Some (clauses, values) →
  placeholders clauses = length values
  ∧ last values = Some (PCallId call_id)
  ∧ last clauses = Some (SetNow "updated_at")
  ∧ Forall (λ c, c ≠ SetParam "call_ended_at") clauses.
Proof.
  unfold update_statement, build_update.
  destruct (build_counts update_data ([], [])) as [Hcount _].
  pose proof (build_known update_data ([], []) (Forall_nil_2 _)) as Hknown.
  destruct (foldl add_clause ([], []) update_data) as [[|c cl] vs];
    [discriminate|].
  intros [= <- <-]. simpl in Hcount, Hknown.
  split; [|split; [|split]].
  - unfold placeholders in *.
    rewrite app_comm_cons, List.filter_app, !length_app.
    simpl in *. lia.
  - apply last_snoc.
  - rewrite app_comm_cons. apply last_snoc.
  - rewrite app_comm_cons. apply Forall_app. split; [done|]. by constructor.
Qed.

(** X18: keys of the dictionary that are no column of the update are
    skipped: the statement is the same as without them.  With no column
    among the keys nothing is executed (and [False] is returned); the
    dictionaries the two finalizers build always have a statement. *)
Theorem unknown_keys_are_skipped (call_id : option string)
    (update_data : list (string * UpdateValue)) :
  update_statement call_id update_data
  = update_statement call_id
      (List.filter (λ item, is_column item.1) update_data)
  ∧ (update_statement call_id update_data = None
     ↔ Forall (λ item, is_column item.1 = false) update_data)
  ∧ ∀ finalizer_data,
      is_Some (update_statement call_id (update_items finalizer_data)).
Proof.
  assert (Hnone : ∀ items,
             update_statement call_id items = None
             ↔ Forall (λ item, is_column item.1 = false) items).
  { intros items. unfold update_statement, build_update.
    destruct (build_counts items ([], [])) as [_ Hlen].
    destruct (foldl add_clause ([], []) items) as [[|c cl] vs];
      simpl in Hlen.
    - split; [intros _|done].
      apply Forall_forall. intros item Hitem.
      destruct (is_column item.1) eqn:Hcol; [|done].
      assert (Hin : In item (List.filter (λ item, is_column item.1) items)).
      { apply filter_In. by rewrite <- list_elem_of_In. }
      destruct (List.filter _ items); [done|discriminate].
    - split; [done|]. intros Hall.
      assert (Hf : List.filter (λ item, is_column item.1) items = []).
      { clear Hlen. induction Hall as [|item items' Hitem _ IH]; [done|].
        simpl. by rewrite Hitem. }
      rewrite Hf in Hlen. discriminate. }
  split; [|split; [apply Hnone|]].
  - unfold update_statement, build_update. f_equal.
    generalize (@nil SetClause, @nil SqlParam).
    induction update_data as [|item items IH]; intros acc; [done|].
    cbn [foldl List.filter].
    destruct (is_column item.1) eqn:Hcol.
    + cbn [foldl]. apply IH.
    + rewrite add_clause_skips by done. apply IH.
  - intros ud. destruct (update_statement call_id (update_items ud)) eqn:Hs;
      [done|].
    apply Hnone in Hs. unfold update_items in Hs.
    apply Forall_cons in Hs as [Hs _]. discriminate Hs.
Qed.

Lemma update_parameters_match_placeholders_witness :
  placeholders Sample.clauses = length Sample.values
  ∧ last Sample.values = Some (PCallId (Some "call_1")).
Proof.
  destruct (update_parameters_match_placeholders (Some "call_1")
              Sample.update_data Sample.clauses Sample.values)
    as (H1 & H2 & _).
  - vm_compute. reflexivity.
  - split; [exact H1|exact H2].
Defined.

(** ** The request to the completion API *)

(** X19: the messages sent to the completion API for a turn are the
    system prompt, then the context, then the utterance as a final [user]
    message: at most 8 messages in all, of which only the first has the
    role [system], and among which the utterance occurs after the system
    prompt only as the last one. *)
Theorem request_ends_with_the_utterance (env : Env) (h : Handler)
    (m : Inbound) (active_calls : Store) (call : PolicyCall)
    (system_prompt : string) :
  EPolicy call
    ∈ (system_step env (Receive (RecvText m)) (Open h) active_calls).2 →
  let messages := chat_messages system_prompt call in
  let utterance := last_user_input (default [] (in_transcript m)) in
  (length messages ≤ 8)%nat
  ∧ head messages = Some (mkMessage "system" system_prompt)
  ∧ last messages = Some (mkMessage "user" utterance)
  ∧ ∀ i msg, messages !! S i = Some msg →
      msg_role msg ≠ "system"
      ∧ (msg_content msg = utterance → S (S i) = length messages).
Proof.
  intros Hcall.
  apply system_step_policy_call in Hcall as (h' & r & _ & Hr & Hcall).
  apply loop_iteration_policy_call in Hcall as (m' & -> & _ & _ & _ & ->).
  injection Hr as <-. unfold chat_messages. simpl.
  set (t := default [] (in_transcript m)).
  set (u := last_user_input t).
  pose proof (conversation_history_length t u) as Hlen.
  pose proof (conversation_history_contents t u) as Hcontents.
  split; [|split; [done|split]].
  - rewrite length_app. simpl. lia.
  - rewrite app_comm_cons. apply last_snoc.
  - intros i msg Hi. change (_ !! S i) with
      ((conversation_history t u ++ [mkMessage "user" u]) !! i) in Hi.
    destruct (decide (i < length (conversation_history t u))%nat) as [Hlt|Hge].
    + rewrite lookup_app_l in Hi by done.
      assert (Hin : msg ∈ conversation_history t u)
        by (apply list_elem_of_lookup; eauto).
      rewrite Forall_forall in Hcontents. split.
      * unfold conversation_history, last_n in Hin.
        apply subseteq_drop, list_elem_of_fmap in Hin as (e & -> & _).
        simpl. by case_bool_decide.
      * intros Hu. by apply Hcontents in Hin.
    + rewrite lookup_app_r in Hi by lia.
      destruct (i - length (conversation_history t u))%nat as [|j] eqn:Hj;
        [|done].
      injection Hi as <-. simpl. split; [done|].
      intros _. rewrite length_app. simpl. lia.
Qed.

Lemma request_ends_with_the_utterance_witness :
  (length (chat_messages "You are a professional logistics dispatcher."
             Sample.expected_call) ≤ 8)%nat
  ∧ last (chat_messages "You are a professional logistics dispatcher."
            Sample.expected_call)
    = Some (mkMessage "user" "Around 5pm").
Proof.
  destruct (request_ends_with_the_utterance
              (Sample.env CompletionNoToolCalls) Sample.handler
              (Sample.turn Sample.transcript) ∅ Sample.expected_call
              "You are a professional logistics dispatcher.")
    as (H1 & _ & H2 & _).
  - vm_compute. left.
  - split; [exact H1|exact H2].
Defined.

(** ** One finalization for each connection *)

Lemma count_writes_app (t1 t2 : list Effect) :
  count_writes (t1 ++ t2) = (count_writes t1 + count_writes t2)%nat.
Proof. unfold count_writes. by rewrite List.filter_app, length_app. Qed.

Lemma loop_iteration_no_write (env : Env) (h : Handler) (r : Received)
    (active_calls : Store) :
  count_writes (loop_iteration env h r active_calls).1.2 = 0%nat.
Proof.
  destruct r as [| | |m]; simpl; try done.
  repeat case_bool_decide; try done.
  destruct (decide (last_user_input (default [] (in_transcript m)) = "")).
  - by rewrite response_required_silent.
  - by rewrite response_required_speaks.
Qed.

Lemma finalize_one_write (env : Env) (call_id : string)
    (active_calls : Store) :
  (count_writes (finalize_call_on_disconnect env call_id active_calls).2
   ≤ 1)%nat.
Proof.
  unfold finalize_call_on_disconnect.
  destruct (db_service env); simpl; unfold count_writes; simpl; lia.
Qed.

Lemma run_closed_no_write (schedule : list (Env * Action))
    (active_calls : Store) :
  Forall (λ step, is_webhook step.2 = false) schedule →
  count_writes (run schedule Closed active_calls).2 = 0%nat.
Proof.
  revert active_calls.
  induction schedule as [|[env a] schedule IH]; intros active_calls Hall.
  - done.
  - apply Forall_cons in Hall as [Ha Hall]. cbn [run].
    destruct a as [r | rd | cid req]; [|discriminate|]; simpl.
    + specialize (IH active_calls Hall).
      by destruct (run schedule Closed active_calls) as [[c s] t].
    + specialize (IH (create_web_call cid req active_calls) Hall).
      by destruct (run schedule Closed _) as [[c s] t].
Qed.

(** X20: as long as no recording webhook comes in, a connection makes at
    most one persistence write over its whole life, whatever it receives:
    none while it is in its loop, and at most the one of its finalizer
    when it leaves. *)
Theorem connection_writes_at_most_once (schedule : list (Env * Action))
    (c : Conn) (active_calls : Store) :
  Forall (λ step, is_webhook step.2 = false) schedule →
  (count_writes (run schedule c active_calls).2 ≤ 1)%nat
  ∧ ((run schedule c active_calls).1.1 = c →
     count_writes (run schedule c active_calls).2 = 0%nat).
Proof.
  revert c active_calls.
  induction schedule as [|[env a] schedule IH]; intros c active_calls Hall.
  - simpl. split; [unfold count_writes; simpl; lia|done].
  - pose proof Hall as Hall'. apply Forall_cons in Hall' as [Ha Hrest].
    destruct c as [h|];
      [|rewrite run_closed_no_write by done; split; [lia|done]].
    cbn [run]. destruct a as [r | rd | cid req]; [|discriminate|].
    + simpl.
      pose proof (loop_iteration_no_write env h r active_calls) as Hloop.
      destruct (loop_iteration env h r active_calls) as [[s t] []];
        cbn [fst snd] in Hloop.
      * destruct (IH (Open h) s Hrest) as [IH1 IH2].
        destruct (run schedule (Open h) s) as [[c2 s2] t2].
        cbn [fst snd] in *. rewrite count_writes_app, Hloop. by split.
      * pose proof (finalize_one_write env (h_call_id h) s) as Hf.
        destruct (finalize_call_on_disconnect env (h_call_id h) s)
          as [s1 t1]. cbn [fst snd] in Hf.
        pose proof (run_closed_no_write schedule s1 Hrest) as Hclosed.
        pose proof (run_closed schedule s1) as [Hc _].
        destruct (run schedule Closed s1) as [[c2 s2] t2].
        cbn [fst snd] in *.
        rewrite !count_writes_app, Hloop, Hclosed, Nat.add_0_r.
        split; [done|]. congruence.
    + simpl.
      destruct (IH (Open h) (create_web_call cid req active_calls) Hrest)
        as [IH1 IH2].
      destruct (run schedule (Open h) _) as [[c2 s2] t2].
      cbn [fst snd app] in *. by split.
Qed.

Lemma connection_writes_at_most_once_witness :
  (count_writes
     (run ((Sample.env CompletionNoToolCalls, Receive RecvDisconnect)
           :: Sample.late_registration)
          (Open Sample.handler) Sample.tracked).2
   ≤ 1)%nat.
Proof.
  refine (proj1 (connection_writes_at_most_once
                   ((Sample.env CompletionNoToolCalls, Receive RecvDisconnect)
                    :: Sample.late_registration)
                   (Open Sample.handler) Sample.tracked _)).
  repeat (constructor; [reflexivity|]). constructor.
Defined.
